(** * herpill-dashboard: the service-request page

    A shallow embedding of the computation done by [OurServicePage]
    (src/app/(dashboard)/dashboard/our-service/page.tsx): the status filter,
    the grouping of requests by user, the pagination over groups, the tab
    badge counts, the two tab handlers, the row actions and the delete
    handler.

    Conventions.
    - A JS array is a [list]; [Array.prototype.filter], [slice], [forEach]
      are [filter], [Array_slice] and a left fold.
    - A JS [Map] is an association list in insertion order ([JsMap]), the
      order in which [Map.prototype.values] iterates.
    - A JS string is a [string]; an optional property is an [option].
    - Page numbers and indices are integers ([Z]); the one division of the
      page, [totalGroups / localLimit], is taken over the rationals before
      [Math.ceil] rounds it up.
    - React state is an explicit record; a handler is a function from the
      state before the event to the state of the next render. *)

From Stdlib Require Import String List Bool Arith ZArith QArith Qround Lia
  Permutation.
Import ListNotations.

Local Open Scope string_scope.
Local Open Scope list_scope.

(** ** JavaScript helpers *)

(** [a || b] on an optional string: [undefined] and the empty string are
    the falsy values. *)
Definition or_string (a : option string) (b : string) : string :=
  match a with
  | Some s => if String.eqb s "" then b else s
  | None => b
  end.

(** [a === b] where [a] is an optional string property and [b] a string. *)
Definition opt_eqb (a : option string) (b : string) : bool :=
  match a with
  | Some s => String.eqb s b
  | None => false
  end.

(** [Array.prototype.slice(start, end)], with the relative indices of the
    language definition: a negative index counts from the end, and both are
    clamped to the length. *)
Definition Array_slice {A : Type} (l : list A) (start end_ : Z) : list A :=
  let len := Z.of_nat (length l) in
  let k := if (start <? 0)%Z then Z.max (len + start) 0 else Z.min start len in
  let final := if (end_ <? 0)%Z then Z.max (len + end_) 0 else Z.min end_ len in
  firstn (Z.to_nat (final - k)) (skipn (Z.to_nat k) l).

(** [Math.ceil] of a number. *)
Definition Math_ceil (q : Q) : Z := Qceiling q.

(** ** Enumerations *)

(** [enum ServiceStatus]: the approval status values. *)
Module ServiceStatus.
Definition Pending : string := "pending".
Definition Accept : string := "accept".
Definition Decline : string := "decline".
End ServiceStatus.

(** [enum TabStatus]: the four status tabs.  [value] is the string each
    member stands for. *)
Module TabStatus.
Inductive t : Type := Pending | Accept | Decline | Done.

Definition value (s : t) : string :=
  match s with
  | Pending => "pending"
  | Accept => "accept"
  | Decline => "decline"
  | Done => "done"
  end.

Definition all : list t := [Pending; Accept; Decline; Done].
End TabStatus.

(** Modelled from the spec: the [DeliveryStatus] enumeration of [@/types],
    which is not among the sources.  The spec names the delivery states
    not-started, started and done; the page reads [Done] and [Started]. *)
Module DeliveryStatus.
Definition Started : string := "started".
Definition Done : string := "done".
End DeliveryStatus.

(** ** Data *)

(** [Partial<User>]: every property optional. *)
Module User.
Record t : Type := mk {
  _id : option string;
  firstName : option string;
  surname : option string;
  email : option string;
  phoneNumber : option string;
  avatar : option string
}.

(** The object literal [{ _id: user }]. *)
Definition stub (id : string) : t :=
  mk (Some id) None None None None None.
End User.

(** [User | string]: the [userId] property of a request. *)
Inductive UserRef : Type :=
| Embedded (u : User.t)
| Reference (id : string).

(** [Pop | Cocp], with the properties the page reads. *)
Module Request.
Record t : Type := mk {
  _id : string;
  userId : UserRef;
  status : string;
  deliveryStatus : option string;
  createdAt : option string
}.
End Request.

(** [interface GroupedRequests]. *)
Record GroupedRequests : Type := mkGroup {
  user : User.t;
  requests : list Request.t
}.

(** ** Status filter *)

(** The callback of [allRequests.filter] in [filteredRequests].  The
    [default] branch of the switch is not reachable from a [TabStatus]. *)
Definition statusMatches (activeStatusTab : TabStatus.t) (req : Request.t)
  : bool :=
  match activeStatusTab with
  | TabStatus.Pending => String.eqb (Request.status req) ServiceStatus.Pending
  | TabStatus.Decline => String.eqb (Request.status req) ServiceStatus.Decline
  | TabStatus.Accept =>
      String.eqb (Request.status req) ServiceStatus.Accept
      && negb (opt_eqb (Request.deliveryStatus req) DeliveryStatus.Done)
  | TabStatus.Done =>
      String.eqb (Request.status req) ServiceStatus.Accept
      && opt_eqb (Request.deliveryStatus req) DeliveryStatus.Done
  end.

Definition filteredRequests (allRequests : list Request.t)
  (activeStatusTab : TabStatus.t) : list Request.t :=
  filter (statusMatches activeStatusTab) allRequests.

(** [getTabCount]: one filter of the whole list per tab, then its length. *)
Definition getTabCount (allRequests : list Request.t) (status : TabStatus.t)
  : nat :=
  match status with
  | TabStatus.Pending =>
      length (filter (fun r =>
        String.eqb (Request.status r) ServiceStatus.Pending) allRequests)
  | TabStatus.Decline =>
      length (filter (fun r =>
        String.eqb (Request.status r) ServiceStatus.Decline) allRequests)
  | TabStatus.Accept =>
      length (filter (fun r =>
        String.eqb (Request.status r) ServiceStatus.Accept
        && negb (opt_eqb (Request.deliveryStatus r) DeliveryStatus.Done))
        allRequests)
  | TabStatus.Done =>
      length (filter (fun r =>
        String.eqb (Request.status r) ServiceStatus.Accept
        && opt_eqb (Request.deliveryStatus r) DeliveryStatus.Done)
        allRequests)
  end.

(** ** An insertion-ordered map

    [Map<string, V>]: [set] on a new key appends the entry, [set] on a key
    already present replaces the value where it stands, and [values] lists
    the values in insertion order. *)
Module JsMap.
Definition t (V : Type) : Type := list (string * V).

Definition empty {V : Type} : t V := [].

Fixpoint has {V : Type} (k : string) (m : t V) : bool :=
  match m with
  | [] => false
  | (k', _) :: m' => if String.eqb k' k then true else has k m'
  end.

Fixpoint get {V : Type} (k : string) (m : t V) : option V :=
  match m with
  | [] => None
  | (k', v) :: m' => if String.eqb k' k then Some v else get k m'
  end.

Fixpoint set {V : Type} (k : string) (v : V) (m : t V) : t V :=
  match m with
  | [] => [(k, v)]
  | (k', v') :: m' =>
      if String.eqb k' k then (k, v) :: m' else (k', v') :: set k v m'
  end.

Definition keys {V : Type} (m : t V) : list string := map fst m.

Definition values {V : Type} (m : t V) : list V := map snd m.
End JsMap.

(** [Array.prototype.forEach] with a callback that may throw: the state is
    threaded through the calls and the first failure ends the loop. *)
Fixpoint forEach {A S : Type} (f : S -> A -> option S) (l : list A) (s : S)
  : option S :=
  match l with
  | [] => Some s
  | x :: l' =>
      match f s x with
      | Some s' => forEach f l' s'
      | None => None
      end
  end.

(** ** Grouping by user *)

Definition getUser (user : UserRef) : User.t :=
  match user with
  | Embedded u => u
  | Reference id => User.stub id
  end.

(** [user._id || "unknown"], the key of a request's group; the page
    computes it again from [group.user] when it renders a group. *)
Definition userKey (user : User.t) : string :=
  or_string (User._id user) "unknown".

(** [group.requests.push(req)]: the array of the group object grows at its
    end, the [user] property stays. *)
Definition push (g : GroupedRequests) (req : Request.t) : GroupedRequests :=
  mkGroup (user g) (requests g ++ [req]).

(** The body of the [forEach] callback of [groupedRequests].  The push
    goes through [groups.get(userId)!]: a missing entry would be a
    [TypeError], here [None]. *)
Definition groupStep (groups : JsMap.t GroupedRequests) (req : Request.t)
  : option (JsMap.t GroupedRequests) :=
  let user := getUser (Request.userId req) in
  let userId := userKey user in
  let groups :=
    if negb (JsMap.has userId groups)
    then JsMap.set userId (mkGroup user []) groups
    else groups in
  match JsMap.get userId groups with
  | Some g =>
      Some (JsMap.set userId (push g req) groups)
  | None => None
  end.

(** The map built by the loop, before [Array.from(groups.values())]. *)
Definition groupsMap (filteredRequests : list Request.t)
  : option (JsMap.t GroupedRequests) :=
  forEach groupStep filteredRequests JsMap.empty.

Definition groupedRequests (filteredRequests : list Request.t)
  : option (list GroupedRequests) :=
  option_map JsMap.values (groupsMap filteredRequests).

(** ** Pagination over groups *)

Definition localLimit : Z := 10.

Definition totalGroups (groupedRequests : list GroupedRequests) : Z :=
  Z.of_nat (length groupedRequests).

Definition totalPage (localLimit : Z) (groupedRequests : list GroupedRequests)
  : Z :=
  Math_ceil (inject_Z (totalGroups groupedRequests) / inject_Z localLimit).

Definition startIndex (localLimit currentPage : Z) : Z :=
  ((currentPage - 1) * localLimit)%Z.

Definition endIndex (localLimit currentPage : Z) : Z :=
  (startIndex localLimit currentPage + localLimit)%Z.

Definition groupsToDisplay (localLimit currentPage : Z)
  (groupedRequests : list GroupedRequests) : list GroupedRequests :=
  Array_slice groupedRequests (startIndex localLimit currentPage)
    (endIndex localLimit currentPage).

(** ** Component state and handlers *)

(** The service category, ["POP" | "COCP"]. *)
Inductive ServiceTab : Type := POP | COCP.

Definition ServiceTab_eqb (a b : ServiceTab) : bool :=
  match a, b with
  | POP, POP | COCP, COCP => true
  | _, _ => false
  end.

(** The four [useState] cells of the component. *)
Record State : Type := mkState {
  activeServiceTab : ServiceTab;
  activeStatusTab : TabStatus.t;
  popPage : Z;
  cocpPage : Z
}.

Definition initialState : State := mkState POP TabStatus.Pending 1 1.

Definition handleServiceTabChange (tab : ServiceTab) (st : State) : State :=
  mkState tab (activeStatusTab st) 1 1.

Definition handleStatusTabChange (status : TabStatus.t) (st : State) : State :=
  if ServiceTab_eqb (activeServiceTab st) POP
  then mkState (activeServiceTab st) status 1 (cocpPage st)
  else mkState (activeServiceTab st) status (popPage st) 1.

Definition currentPage (st : State) : Z :=
  if ServiceTab_eqb (activeServiceTab st) POP then popPage st else cocpPage st.

Definition setPage (st : State) (page : Z) : State :=
  if ServiceTab_eqb (activeServiceTab st) POP
  then mkState (activeServiceTab st) (activeStatusTab st) page (cocpPage st)
  else mkState (activeServiceTab st) (activeStatusTab st) (popPage st) page.

(** The [onClick] of the Previous and Next buttons. *)
Definition clickPrevious (st : State) : State :=
  setPage st (Z.max 1 (currentPage st - 1)).

Definition clickNext (totalPage : Z) (st : State) : State :=
  setPage st (Z.min totalPage (currentPage st + 1)).

(** What one query hook hands to the component: [data] is
    [response?.data], absent while nothing was fetched. *)
Record QueryResult : Type := mkQuery {
  data : option (list Request.t);
  isLoading : bool;
  isFetching : bool;
  isError : bool
}.

Record Queries : Type := mkQueries {
  popQuery : QueryResult;
  cocpQuery : QueryResult
}.

Definition activeQuery (st : State) (q : Queries) : QueryResult :=
  if ServiceTab_eqb (activeServiceTab st) POP then popQuery q else cocpQuery q.

(** [responseData?.data || []]. *)
Definition allRequests (st : State) (q : Queries) : list Request.t :=
  match data (activeQuery st q) with
  | Some d => d
  | None => []
  end.

(** ** The rendered page *)

Inductive Action : Type :=
| DetailsLink (href : string)
| AcceptButton (id : string)
| DeclineButton (id : string)
| DeleteButton (id : string).

(** [activeServiceTab.toLowerCase()]. *)
Definition requestType (tab : ServiceTab) : string :=
  match tab with
  | POP => "pop"
  | COCP => "cocp"
  end.

Definition detailsHref (tab : ServiceTab) (req : Request.t) : string :=
  String.append "/dashboard/our-service/"
    (String.append (Request._id req)
       (String.append "?type=" (requestType tab))).

(** The Action cell of a request row: two conditional fragments, one
    after the other. *)
Definition rowActions (tab : ServiceTab) (req : Request.t) : list Action :=
  (if String.eqb (Request.status req) ServiceStatus.Pending
   then [DetailsLink (detailsHref tab req);
         AcceptButton (Request._id req);
         DeclineButton (Request._id req)]
   else [])
  ++
  (if String.eqb (Request.status req) ServiceStatus.Accept
      || String.eqb (Request.status req) ServiceStatus.Decline
   then [DetailsLink (detailsHref tab req);
         DeleteButton (Request._id req)]
   else []).

Record Row : Type := mkRow {
  rowKey : string;
  actions : list Action
}.

Record GroupCard : Type := mkCard {
  cardKey : string;
  cardUser : User.t;
  requestCount : nat;
  rows : list Row
}.

Definition renderGroup (tab : ServiceTab) (group : GroupedRequests)
  : GroupCard :=
  mkCard (userKey (user group)) (user group) (length (requests group))
    (map (fun req => mkRow (Request._id req) (rowActions tab req))
       (requests group)).

(** The container under the tabs: loading text, error text, the
    "No ... requests found" text, or the group cards. *)
Inductive Body : Type :=
| LoadingMessage
| ErrorMessage
| NoRequestsFound (status : TabStatus.t) (service : ServiceTab)
| GroupCards (cards : list GroupCard).

Definition renderBody (st : State) (q : Queries)
  (groupsToDisplay : list GroupedRequests) : Body :=
  if isLoading (activeQuery st q) then LoadingMessage
  else if isError (activeQuery st q) then ErrorMessage
  else if (length groupsToDisplay =? 0)%nat
  then NoRequestsFound (activeStatusTab st) (activeServiceTab st)
  else GroupCards (map (renderGroup (activeServiceTab st)) groupsToDisplay).

Definition statusTabs : list (string * TabStatus.t) :=
  [("Pending", TabStatus.Pending);
   ("Accepted", TabStatus.Accept);
   ("Declined", TabStatus.Decline);
   ("Delivery Done", TabStatus.Done)].

Record View : Type := mkView {
  badges : list (string * nat);
  body : Body;
  pager : option (Z * Z)
}.

(** One render of the component; [None] if the grouping loop threw. *)
Definition render (st : State) (q : Queries) : option View :=
  match groupedRequests (filteredRequests (allRequests st q)
                           (activeStatusTab st)) with
  | None => None
  | Some groups =>
      let pages := totalPage localLimit groups in
      Some (mkView
        (map (fun tab => (fst tab, getTabCount (allRequests st q) (snd tab)))
           statusTabs)
        (renderBody st q (groupsToDisplay localLimit (currentPage st) groups))
        (if negb (isLoading (activeQuery st q))
            && negb (isError (activeQuery st q))
            && (1 <? pages)%Z
         then Some (currentPage st, pages)
         else None))
  end.

(** ** Dialogs, mutations and toasts

    The handlers talk to the confirmation dialog, the API mutations and
    the toasts.  A handler is a tree of such requests, each with the
    continuation that receives its answer; [run] plays a tree against the
    answers of a world and returns the requests in the order they were
    made. *)

Record SwalOptions : Type := mkSwal {
  title : string;
  text : string;
  icon : string;
  showCancelButton : bool;
  confirmButtonText : option string
}.

Record SwalResult : Type := mkSwalResult { isConfirmed : bool }.

(** [status: "accept" | "decline"]. *)
Inductive Decision : Type := accept | decline.

Definition Decision_value (d : Decision) : string :=
  match d with
  | accept => "accept"
  | decline => "decline"
  end.

Inductive Mutation : Type :=
| deletePop (id : string)
| deleteCocp (id : string)
| updatePopStatus (id : string) (status : Decision)
| updateCocpStatus (id : string) (status : Decision).

(** [await mutation(...).unwrap()]: the response, of which the handlers
    read [message], or the thrown error, of which they read
    [data?.message]. *)
Inductive Outcome : Type :=
| Fulfilled (message : option string)
| Rejected (message : option string).

Inductive Proc : Type :=
| Finish
| SwalFire (opts : SwalOptions) (k : SwalResult -> Proc)
| Await (m : Mutation) (k : Outcome -> Proc)
| ToastSuccess (msg : string) (k : Proc)
| ToastError (msg : string) (k : Proc)
| ConsoleError (msg : string) (k : Proc).

Definition confirmDelete : SwalOptions :=
  mkSwal "Are you sure?" "This request will be permanently deleted!"
    "warning" true (Some "Yes, delete it!").

Definition deletedNotice : SwalOptions :=
  mkSwal "Deleted!" "The request has been removed." "success" false None.

Definition handleDelete (tab : ServiceTab) (id : string) : Proc :=
  SwalFire confirmDelete (fun result =>
    if isConfirmed result then
      let mutation := if ServiceTab_eqb tab POP then deletePop else deleteCocp in
      Await (mutation id) (fun outcome =>
        match outcome with
        | Fulfilled message =>
            ToastSuccess (or_string message "Request deleted successfully!")
              (SwalFire deletedNotice (fun _ => Finish))
        | Rejected message =>
            ConsoleError "Failed to delete request::"
              (ToastError (or_string message "An error occurred while deleting.")
                 Finish)
        end)
    else Finish).

Definition handleStatusUpdate (tab : ServiceTab) (id : string)
  (status : Decision) : Proc :=
  let actionText := Decision_value status in
  let mutation :=
    if ServiceTab_eqb tab POP then updatePopStatus else updateCocpStatus in
  Await (mutation id status) (fun outcome =>
    match outcome with
    | Fulfilled message =>
        ToastSuccess
          (or_string message
             (String.append "Request successfully "
                (String.append actionText "ed.")))
          Finish
    | Rejected message =>
        ConsoleError
          (String.append "Failed to "
             (String.append actionText " request:"))
          (ToastError
             (or_string message
                (String.append "An error occurred while trying to "
                   (String.append actionText " the request.")))
             Finish)
    end).

(** The [onClick] of an action; a link has none. *)
Definition onClick (tab : ServiceTab) (a : Action) : Proc :=
  match a with
  | DetailsLink _ => Finish
  | AcceptButton id => handleStatusUpdate tab id accept
  | DeclineButton id => handleStatusUpdate tab id decline
  | DeleteButton id => handleDelete tab id
  end.

Record World : Type := mkWorld {
  answerDialog : SwalOptions -> SwalResult;
  answerMutation : Mutation -> Outcome
}.

Inductive Event : Type :=
| Dialog (opts : SwalOptions) (result : SwalResult)
| Dispatch (m : Mutation)
| Toast (success : bool) (msg : string)
| Console (msg : string).

Fixpoint run (w : World) (p : Proc) : list Event :=
  match p with
  | Finish => []
  | SwalFire opts k =>
      Dialog opts (answerDialog w opts) :: run w (k (answerDialog w opts))
  | Await m k => Dispatch m :: run w (k (answerMutation w m))
  | ToastSuccess msg k => Toast true msg :: run w k
  | ToastError msg k => Toast false msg :: run w k
  | ConsoleError msg k => Console msg :: run w k
  end.

Definition isDelete (m : Mutation) : bool :=
  match m with
  | deletePop _ | deleteCocp _ => true
  | _ => false
  end.

(** ** Vocabulary of the statements *)

(** The key under which the loop files a request. *)
Definition requestKey (req : Request.t) : string :=
  userKey (getUser (Request.userId req)).

(** The key the page shows for a group, [group.user._id || "unknown"]. *)
Definition groupKey (g : GroupedRequests) : string := userKey (user g).

(** [r] is the first request of [p] filed under [k]. *)
Definition firstWith (k : string) (p : list Request.t) (r : Request.t)
  : Prop :=
  exists pre post,
    p = pre ++ r :: post /\ requestKey r = k /\
    forall x, In x pre -> requestKey x <> k.

(** A request filed under [k1] comes in [p] before every request filed
    under [k2]. *)
Definition seenBefore (p : list Request.t) (k1 k2 : string) : Prop :=
  exists pre r1 post,
    p = pre ++ r1 :: post /\ requestKey r1 = k1 /\
    forall x, In x pre -> requestKey x <> k2.

(** A user reference that yields no identifier: the [_id] of the resolved
    summary is absent or empty. *)
Definition unresolved (ref : UserRef) : Prop :=
  User._id (getUser ref) = None \/ User._id (getUser ref) = Some "".

(** What holds of the map after the loop has consumed the prefix [p]. *)
Record GroupsInv (p : list Request.t) (m : JsMap.t GroupedRequests)
  : Prop := mkInv {
  inv_nodup : NoDup (JsMap.keys m);
  inv_cover : forall r, In r p -> In (requestKey r) (JsMap.keys m);
  inv_group : forall k g, In (k, g) m ->
    exists r, firstWith k p r /\
      user g = getUser (Request.userId r) /\
      requests g = filter (fun x => String.eqb (requestKey x) k) p;
  inv_order : ForallOrdPairs (seenBefore p) (JsMap.keys m);
  inv_perm : Permutation (concat (map requests (JsMap.values m))) p
}.

(** ** Sample data *)

Definition plainRequest (id : string) (u : UserRef) (st : string)
  (delivery : option string) : Request.t :=
  Request.mk id u st delivery None.

(** The scenario of the specification: two pending requests of user A
    around a delivered request of user B. *)
Definition scenario : list Request.t :=
  [plainRequest "1" (Reference "A") "pending" None;
   plainRequest "2" (Reference "B") "accept" (Some "done");
   plainRequest "3" (Reference "A") "pending" None].

Definition sampleGroup : GroupedRequests :=
  mkGroup (User.stub "A") [plainRequest "1" (Reference "A") "pending" None].

(** A request with an approval status outside [ServiceStatus]. *)
Definition cancelledRequest : Request.t :=
  plainRequest "4" (Reference "C") "cancelled" None.

(** A query that has loaded [d] and is at rest. *)
Definition idleQuery (d : list Request.t) : QueryResult :=
  mkQuery (Some d) false false false.

Definition scenarioQueries : Queries :=
  mkQueries (idleQuery scenario) (idleQuery []).

(** ** Pager buttons and the events of the page *)

(** [disabled] of the Previous and of the Next button. *)
Definition previousDisabled (st : State) (q : Queries) : bool :=
  (currentPage st =? 1)%Z || isFetching (activeQuery st q).

Definition nextDisabled (totalPage : Z) (st : State) (q : Queries) : bool :=
  (currentPage st =? totalPage)%Z || isFetching (activeQuery st q).

(** One user event on the page rendered from [st] and the query results
    [q]: a click on a service card, on a status tab, or on a pager button
    that is rendered and not disabled. *)
Inductive step (q : Queries) : State -> State -> Prop :=
| step_service (tab : ServiceTab) (st : State) :
    step q st (handleServiceTabChange tab st)
| step_status (status : TabStatus.t) (st : State) :
    step q st (handleStatusTabChange status st)
| step_previous (st : State) (v : View) (pg : Z * Z) :
    render st q = Some v -> pager v = Some pg ->
    previousDisabled st q = false ->
    step q st (clickPrevious st)
| step_next (st : State) (v : View) (pg : Z * Z) :
    render st q = Some v -> pager v = Some pg ->
    nextDisabled (snd pg) st q = false ->
    step q st (clickNext (snd pg) st).

(** The states the page can be in: the query results may differ from one
    event to the next. *)
Inductive reachable : State -> Prop :=
| reach_init : reachable initialState
| reach_step (q : Queries) (st st' : State) :
    reachable st -> step q st st' -> reachable st'.

(** The page number of the category that is not shown. *)
Definition otherPage (st : State) : Z :=
  if ServiceTab_eqb (activeServiceTab st) POP then cocpPage st else popPage st.

(** The pages [1 .. totalPage]. *)
Definition pageNumbers (totalPage : Z) : list Z :=
  map Z.of_nat (seq 1 (Z.to_nat totalPage)).

(** ** Mutations *)

Definition mutationId (m : Mutation) : string :=
  match m with
  | deletePop id | deleteCocp id => id
  | updatePopStatus id _ | updateCocpStatus id _ => id
  end.

(** The category whose endpoint a mutation calls. *)
Definition mutationService (m : Mutation) : ServiceTab :=
  match m with
  | deletePop _ | updatePopStatus _ _ => POP
  | deleteCocp _ | updateCocpStatus _ _ => COCP
  end.

Definition isDispatch (e : Event) : bool :=
  match e with
  | Dispatch _ => true
  | _ => false
  end.

Definition isDialog (e : Event) : bool :=
  match e with
  | Dialog _ _ => true
  | _ => false
  end.

Definition isToast (e : Event) : bool :=
  match e with
  | Toast _ _ => true
  | _ => false
  end.

(** ** The requests table of the user page

    [UserDetailsPage] (src/app/(dashboard)/dashboard/user/[id]/page.tsx),
    from the service cards down: the two counts, and the table of the
    requests of the selected category.  A row is kept as its key, the
    colour classes of its two badges and the link of its action. *)

Definition statusBadgeClass (req : Request.t) : string :=
  if String.eqb (Request.status req) "accept"
  then "bg-green-100 text-green-700"
  else if String.eqb (Request.status req) "decline"
  then "bg-red-100 text-red-700"
  else "bg-yellow-100 text-yellow-700".

Definition deliveryBadgeClass (req : Request.t) : string :=
  if opt_eqb (Request.deliveryStatus req) DeliveryStatus.Done
  then "bg-green-100 text-green-700"
  else if opt_eqb (Request.deliveryStatus req) DeliveryStatus.Started
  then "bg-blue-100 text-blue-700"
  else "bg-gray-100 text-gray-700".

Record UserRow : Type := mkUserRow {
  userRowKey : string;
  userRowStatusClass : string;
  userRowDeliveryClass : string;
  userRowHref : string
}.

Definition userRow (tab : ServiceTab) (req : Request.t) : UserRow :=
  mkUserRow (Request._id req) (statusBadgeClass req) (deliveryBadgeClass req)
    (String.append "/dashboard/our-service/"
       (String.append (Request._id req)
          (String.append "?type=" (requestType tab)))).

Inductive UserTable : Type :=
| LoadingRequests
| NoUserRequests (service : ServiceTab)
| RequestRows (rows : list UserRow).

(** [popResponse?.data?.length ?? 0]. *)
Definition responseCount (response : option (list Request.t)) : nat :=
  match response with
  | Some d => length d
  | None => 0
  end.

(** The [requests] of the user page, [response?.data || []] of the
    selected category. *)
Definition userRequests (tab : ServiceTab)
  (popResponse cocpResponse : option (list Request.t)) : list Request.t :=
  match (if ServiceTab_eqb tab POP then popResponse else cocpResponse) with
  | Some d => d
  | None => []
  end.

Definition userTable (tab : ServiceTab) (isPopLoading isCocpLoading : bool)
  (popResponse cocpResponse : option (list Request.t)) : UserTable :=
  let serviceLoading :=
    if ServiceTab_eqb tab POP then isPopLoading else isCocpLoading in
  let requests := userRequests tab popResponse cocpResponse in
  if serviceLoading then LoadingRequests
  else if (length requests =? 0)%nat then NoUserRequests tab
  else RequestRows (map (userRow tab) requests).

(** ** Disabled buttons

    The Accept and the Decline button are rendered with
    [disabled={isUpdatingStatus}], and a disabled button does not run its
    [onClick]; the details link and the Delete button have no such
    attribute. *)

(** [isUpdatingStatus = isUpdatingPop || isUpdatingCocp], from the two
    status mutation hooks. *)
Definition isUpdatingStatus (isUpdatingPop isUpdatingCocp : bool) : bool :=
  isUpdatingPop || isUpdatingCocp.

Definition actionDisabled (updating : bool) (a : Action) : bool :=
  match a with
  | AcceptButton _ | DeclineButton _ => updating
  | DetailsLink _ | DeleteButton _ => false
  end.

(** A click of the user on an action of a row, while [updating] is the
    value of [isUpdatingStatus] in the render that shows the row. *)
Definition click (updating : bool) (tab : ServiceTab) (a : Action) : Proc :=
  if actionDisabled updating a then Finish else onClick tab a.

(** ** The user page as a whole

    [UserDetailsPage] returns early while the user query is loading, and
    on an error or a response that is absent or not successful; only
    then come the service cards with their counts and the requests
    table.  The header and the details grid of the user are not part of
    this view, nor is the [console.error] of the error branch. *)

(** The response envelope of the user query. *)
Record UserResponse : Type := mkUserResponse {
  success : bool;
  userData : User.t;
  userMessage : option string
}.

Inductive UserPage : Type :=
| UserLoading
| UserNotFound
| UserShown (popCount cocpCount : nat) (table : UserTable).

Definition UserDetailsPage (userLoading userError : bool)
  (userResponse : option UserResponse) (tab : ServiceTab)
  (isPopLoading isCocpLoading : bool)
  (popResponse cocpResponse : option (list Request.t)) : UserPage :=
  if userLoading then UserLoading
  else if userError
          || negb (match userResponse with
                   | Some r => success r
                   | None => false
                   end)
  then UserNotFound
  else UserShown (responseCount popResponse) (responseCount cocpResponse)
         (userTable tab isPopLoading isCocpLoading popResponse cocpResponse).

(** ** The status filter *)

Lemma opt_eqb_eq (a : option string) (b : string) :
  opt_eqb a b = true <-> a = Some b.
Proof.
  destruct a as [s|]; simpl.
  - rewrite String.eqb_eq. split; congruence.
  - split; discriminate.
Qed.

Lemma opt_eqb_neq (a : option string) (b : string) :
  opt_eqb a b = false <-> a <> Some b.
Proof.
  rewrite <- opt_eqb_eq. destruct (opt_eqb a b); split; congruence.
Qed.

Lemma statusMatches_Pending req :
  statusMatches TabStatus.Pending req = true <->
  Request.status req = ServiceStatus.Pending.
Proof. apply String.eqb_eq. Qed.

Lemma statusMatches_Decline req :
  statusMatches TabStatus.Decline req = true <->
  Request.status req = ServiceStatus.Decline.
Proof. apply String.eqb_eq. Qed.

Lemma statusMatches_Accept req :
  statusMatches TabStatus.Accept req = true <->
  Request.status req = ServiceStatus.Accept /\
  Request.deliveryStatus req <> Some DeliveryStatus.Done.
Proof.
  simpl. rewrite andb_true_iff, negb_true_iff, String.eqb_eq, opt_eqb_neq.
  reflexivity.
Qed.

Lemma statusMatches_Done req :
  statusMatches TabStatus.Done req = true <->
  Request.status req = ServiceStatus.Accept /\
  Request.deliveryStatus req = Some DeliveryStatus.Done.
Proof.
  simpl. rewrite andb_true_iff, String.eqb_eq, opt_eqb_eq. reflexivity.
Qed.

(** C1. Under each of the four status filters the filtered list holds
    exactly the requests of the source list that meet the condition of the
    filter: pending; declined; accepted and not delivered; accepted and
    delivered. *)
Theorem filteredRequests_exact (allRequests : list Request.t) (r : Request.t) :
  (In r (filteredRequests allRequests TabStatus.Pending) <->
     In r allRequests /\ Request.status r = ServiceStatus.Pending) /\
  (In r (filteredRequests allRequests TabStatus.Decline) <->
     In r allRequests /\ Request.status r = ServiceStatus.Decline) /\
  (In r (filteredRequests allRequests TabStatus.Accept) <->
     In r allRequests /\ Request.status r = ServiceStatus.Accept /\
     Request.deliveryStatus r <> Some DeliveryStatus.Done) /\
  (In r (filteredRequests allRequests TabStatus.Done) <->
     In r allRequests /\ Request.status r = ServiceStatus.Accept /\
     Request.deliveryStatus r = Some DeliveryStatus.Done).
Proof.
  unfold filteredRequests.
  rewrite !filter_In, statusMatches_Pending, statusMatches_Decline,
    statusMatches_Accept, statusMatches_Done.
  repeat split; tauto.
Qed.

Lemma filter_length_split {A : Type} (f g h : A -> bool) (l : list A) :
  (forall x, h x = f x || g x) ->
  (forall x, f x && g x = false) ->
  (length (filter f l) + length (filter g l) = length (filter h l))%nat.
Proof.
  intros Hor Hand. induction l as [|x l IH]; simpl; [reflexivity|].
  rewrite Hor. specialize (Hand x).
  destruct (f x), (g x); simpl in *; try discriminate; lia.
Qed.

(** C4. The Accepted and the DeliveryDone selections of a request list
    have no request in common, and a request is in one of the two exactly
    when it is a request of the list with approval status accepted; the
    two selections together are as many as the accepted requests. *)
Theorem accepted_done_partition (allRequests : list Request.t) :
  (forall r, ~ (In r (filteredRequests allRequests TabStatus.Accept) /\
                In r (filteredRequests allRequests TabStatus.Done))) /\
  (forall r,
     In r (filteredRequests allRequests TabStatus.Accept) \/
     In r (filteredRequests allRequests TabStatus.Done) <->
     In r allRequests /\ Request.status r = ServiceStatus.Accept) /\
  (length (filteredRequests allRequests TabStatus.Accept) +
   length (filteredRequests allRequests TabStatus.Done) =
   length (filter (fun r =>
                     String.eqb (Request.status r) ServiceStatus.Accept)
             allRequests))%nat.
Proof.
  unfold filteredRequests. split; [|split].
  - intros r. rewrite !filter_In, statusMatches_Accept, statusMatches_Done.
    tauto.
  - intros r. rewrite !filter_In, statusMatches_Accept, statusMatches_Done.
    destruct (opt_eqb (Request.deliveryStatus r) DeliveryStatus.Done) eqn:E;
      [apply opt_eqb_eq in E | apply opt_eqb_neq in E]; tauto.
  - apply filter_length_split; intros x; cbv [statusMatches];
      destruct (String.eqb (Request.status x) ServiceStatus.Accept),
        (opt_eqb (Request.deliveryStatus x) DeliveryStatus.Done);
      reflexivity.
Qed.

(** ** The insertion-ordered map *)

Section JsMapFacts.
Context {V : Type}.
Implicit Types (m before after : JsMap.t V) (k : string) (v : V).

Lemma JsMap_has_false k m :
  JsMap.has k m = false <-> ~ In k (JsMap.keys m).
Proof.
  induction m as [|[k' v'] m IH]; simpl.
  - tauto.
  - destruct (String.eqb_spec k' k) as [->|Hne].
    + split; [discriminate | tauto].
    + rewrite IH. tauto.
Qed.

Lemma JsMap_set_fresh k v m :
  ~ In k (JsMap.keys m) -> JsMap.set k v m = m ++ [(k, v)].
Proof.
  induction m as [|[k' v'] m IH]; simpl; intros Hk; [reflexivity|].
  destruct (String.eqb_spec k' k) as [->|Hne]; [tauto|].
  rewrite IH; tauto.
Qed.

Lemma JsMap_has_split k m :
  JsMap.has k m = true ->
  exists before v after,
    m = before ++ (k, v) :: after /\ ~ In k (JsMap.keys before).
Proof.
  induction m as [|[k' v'] m IH]; simpl; [discriminate|].
  destruct (String.eqb_spec k' k) as [->|Hne]; intros H.
  - exists [], v', m. simpl. tauto.
  - destruct (IH H) as (before & v & after & -> & Hk).
    exists ((k', v') :: before), v, after. simpl. tauto.
Qed.

Lemma JsMap_get_at k v before after :
  ~ In k (JsMap.keys before) ->
  JsMap.get k (before ++ (k, v) :: after) = Some v.
Proof.
  induction before as [|[k' v'] before IH]; simpl; intros Hk.
  - now rewrite String.eqb_refl.
  - destruct (String.eqb_spec k' k) as [->|Hne]; [tauto|].
    apply IH. tauto.
Qed.

Lemma JsMap_set_at k v v0 before after :
  ~ In k (JsMap.keys before) ->
  JsMap.set k v (before ++ (k, v0) :: after) = before ++ (k, v) :: after.
Proof.
  induction before as [|[k' v'] before IH]; simpl; intros Hk.
  - now rewrite String.eqb_refl.
  - destruct (String.eqb_spec k' k) as [->|Hne]; [tauto|].
    rewrite IH; tauto.
Qed.

Lemma JsMap_get_In k v m :
  NoDup (JsMap.keys m) -> In (k, v) m -> JsMap.get k m = Some v.
Proof.
  intros Hnd Hin. apply in_split in Hin as (before & after & ->).
  apply JsMap_get_at. unfold JsMap.keys in *. rewrite map_app in Hnd.
  simpl in Hnd. apply NoDup_remove_2 in Hnd. rewrite in_app_iff in Hnd. tauto.
Qed.

Lemma JsMap_keys_In k m :
  In k (JsMap.keys m) -> exists v, In (k, v) m.
Proof.
  unfold JsMap.keys. rewrite in_map_iff. intros ([k' v] & Hk & Hin).
  simpl in Hk. subst. eauto.
Qed.

End JsMapFacts.

(** ** Ordered pairs of a list *)

Lemma ForallOrdPairs_impl {A : Type} (R R' : A -> A -> Prop) (l : list A) :
  (forall a b, R a b -> R' a b) ->
  ForallOrdPairs R l -> ForallOrdPairs R' l.
Proof.
  intros Himp. induction 1 as [|a l Ha _ IH]; constructor; [|exact IH].
  eapply Forall_impl; [|exact Ha]. auto.
Qed.

Lemma ForallOrdPairs_snoc {A : Type} (R : A -> A -> Prop) (l : list A) x :
  ForallOrdPairs R l -> Forall (fun a => R a x) l ->
  ForallOrdPairs R (l ++ [x]).
Proof.
  induction 1 as [|a l Ha _ IH]; simpl; intros Hx.
  - repeat constructor.
  - inversion Hx; subst. constructor; [|auto].
    apply Forall_app. split; [exact Ha|]. now constructor.
Qed.

Lemma ForallOrdPairs_split {A : Type} (R : A -> A -> Prop) before a after b :
  ForallOrdPairs R (before ++ a :: after) -> In b after -> R a b.
Proof.
  induction before as [|c before IH]; simpl; intros H Hb;
    inversion H as [|? ? Hall Hrest]; subst.
  - rewrite Forall_forall in Hall. auto.
  - auto.
Qed.

(** ** Grouping *)

(** The scenario of the specification: the Pending filter leaves the two
    requests of user A, grouped in one group in that order. *)
Example scenario_pending :
  groupedRequests (filteredRequests scenario TabStatus.Pending) =
  Some [mkGroup (User.stub "A")
          [plainRequest "1" (Reference "A") "pending" None;
           plainRequest "3" (Reference "A") "pending" None]].
Proof. reflexivity. Qed.

Example scenario_unfiltered_keys :
  option_map (map groupKey) (groupedRequests scenario) = Some ["A"; "B"].
Proof. reflexivity. Qed.

(** One turn of the loop either opens a group at the end of the map or
    extends the group already filed under the key of the request. *)
Lemma groupStep_cases (m : JsMap.t GroupedRequests) (r : Request.t) :
  (~ In (requestKey r) (JsMap.keys m) /\
   groupStep m r =
     Some (m ++ [(requestKey r, mkGroup (getUser (Request.userId r)) [r])]))
  \/
  (exists before g after,
     m = before ++ (requestKey r, g) :: after /\
     ~ In (requestKey r) (JsMap.keys before) /\
     groupStep m r =
       Some (before ++ (requestKey r, push g r) :: after)).
Proof.
  unfold groupStep. fold (requestKey r).
  destruct (JsMap.has (requestKey r) m) eqn:Hhas; simpl.
  - right. destruct (JsMap_has_split _ _ Hhas) as (before & g & after & -> & Hk).
    exists before, g, after. repeat split; [exact Hk|].
    now rewrite JsMap_get_at, JsMap_set_at.
  - left. apply JsMap_has_false in Hhas. split; [exact Hhas|].
    rewrite (JsMap_set_fresh _ _ _ Hhas).
    now rewrite JsMap_get_at, JsMap_set_at.
Qed.

Lemma firstWith_snoc k p r x : firstWith k p r -> firstWith k (p ++ [x]) r.
Proof.
  intros (pre & post & -> & Hk & Hpre).
  exists pre, (post ++ [x]). rewrite <- app_assoc. simpl. auto.
Qed.

Lemma seenBefore_snoc p x k1 k2 :
  seenBefore p k1 k2 -> seenBefore (p ++ [x]) k1 k2.
Proof.
  intros (pre & r1 & post & -> & Hk & Hpre).
  exists pre, r1, (post ++ [x]). rewrite <- app_assoc. simpl. auto.
Qed.

Lemma filter_key_snoc k p x :
  filter (fun y => String.eqb (requestKey y) k) (p ++ [x]) =
  filter (fun y => String.eqb (requestKey y) k) p ++
  (if String.eqb (requestKey x) k then [x] else []).
Proof. rewrite filter_app. simpl. now destruct (String.eqb _ _). Qed.

Lemma filter_key_none k p :
  (forall x, In x p -> requestKey x <> k) ->
  filter (fun y => String.eqb (requestKey y) k) p = [].
Proof.
  induction p as [|x p IH]; simpl; intros H; [reflexivity|].
  destruct (String.eqb_spec (requestKey x) k) as [E|_].
  - exfalso. apply (H x); auto.
  - apply IH. auto.
Qed.

Lemma GroupsInv_empty : GroupsInv [] JsMap.empty.
Proof.
  constructor; simpl; try constructor; try tauto.
Qed.

(** A request whose key is new opens a group after the others. *)
Lemma GroupsInv_open p m r :
  GroupsInv p m ->
  ~ In (requestKey r) (JsMap.keys m) ->
  GroupsInv (p ++ [r])
    (m ++ [(requestKey r, mkGroup (getUser (Request.userId r)) [r])]).
Proof.
  intros [Hnd Hcov Hgrp Hord Hperm] Hfresh.
  assert (Hnone : forall x, In x p -> requestKey x <> requestKey r).
  { intros x Hx E. apply Hfresh. rewrite <- E. auto. }
  constructor.
  - unfold JsMap.keys in *. rewrite map_app. simpl.
    apply NoDup_app; [exact Hnd | repeat constructor; simpl; tauto |].
    intros k Hk [<-|[]]. tauto.
  - intros x Hx. unfold JsMap.keys in *. rewrite map_app, in_app_iff. simpl.
    apply in_app_iff in Hx as [Hx|[<-|[]]]; auto.
  - intros k g Hin. apply in_app_iff in Hin as [Hin|[Heq|[]]].
    + destruct (Hgrp k g Hin) as (r0 & Hfirst & Hu & Hreq).
      exists r0. repeat split; [now apply firstWith_snoc | exact Hu |].
      rewrite filter_key_snoc, Hreq.
      destruct (String.eqb_spec (requestKey r) k) as [E|_].
      * exfalso. apply Hfresh. rewrite E.
        change k with (fst (k, g)). now apply in_map.
      * now rewrite app_nil_r.
    + inversion Heq; subst k g; clear Heq. exists r. repeat split.
      * exists p, []. auto.
      * simpl. rewrite filter_key_snoc, String.eqb_refl.
        now rewrite filter_key_none.
  - unfold JsMap.keys in *. rewrite map_app. simpl.
    apply ForallOrdPairs_snoc.
    + eapply ForallOrdPairs_impl; [|exact Hord].
      intros a b. apply seenBefore_snoc.
    + apply Forall_forall. intros k Hk.
      destruct (JsMap_keys_In _ _ Hk) as (g & Hin).
      destruct (Hgrp k g Hin) as (r0 & (pre & post & -> & Hr0 & Hpre) & _).
      exists pre, r0, (post ++ [r]). rewrite <- app_assoc. simpl.
      repeat split; [exact Hr0|]. intros x Hx. apply Hnone.
      apply in_app_iff. auto.
  - unfold JsMap.values in *. rewrite !map_app, concat_app. simpl.
    now apply Permutation_app_tail.
Qed.

(** A request whose key is filed already joins that group at its end;
    the keys of the map and their order stay. *)
Lemma GroupsInv_extend p before g after r :
  GroupsInv p (before ++ (requestKey r, g) :: after) ->
  GroupsInv (p ++ [r]) (before ++ (requestKey r, push g r) :: after).
Proof.
  intros [Hnd Hcov Hgrp Hord Hperm].
  assert (Hkeys : JsMap.keys (before ++ (requestKey r, push g r) :: after) =
                  JsMap.keys (before ++ (requestKey r, g) :: after)).
  { unfold JsMap.keys. now rewrite !map_app. }
  constructor.
  - now rewrite Hkeys.
  - rewrite Hkeys. intros x Hx. apply in_app_iff in Hx as [Hx|[<-|[]]]; auto.
    unfold JsMap.keys. rewrite map_app, in_app_iff. simpl. auto.
  - intros k g' Hin.
    assert (Hcase : (k, g') = (requestKey r, push g r) \/
                    (In (k, g') (before ++ (requestKey r, g) :: after) /\
                     k <> requestKey r)).
    { unfold JsMap.keys in Hnd. rewrite map_app in Hnd. simpl in Hnd.
      apply NoDup_remove_2 in Hnd. rewrite in_app_iff in Hnd.
      apply in_app_iff in Hin as [Hin|[Heq|Hin]]; [right|left; auto|right].
      - split; [apply in_app_iff; auto|]. intros ->. apply Hnd. left.
        change (requestKey r) with (fst (requestKey r, g')). now apply in_map.
      - split; [apply in_app_iff; simpl; auto|]. intros ->. apply Hnd. right.
        change (requestKey r) with (fst (requestKey r, g')). now apply in_map. }
    destruct Hcase as [Heq|[Hold Hne]].
    + inversion Heq; subst k g'; clear Heq.
      destruct (Hgrp (requestKey r) g) as (r0 & Hfirst & Hu & Hreq).
      { apply in_app_iff. simpl. auto. }
      exists r0. repeat split; [now apply firstWith_snoc | exact Hu |].
      simpl. now rewrite filter_key_snoc, String.eqb_refl, Hreq.
    + destruct (Hgrp k g' Hold) as (r0 & Hfirst & Hu & Hreq).
      exists r0. repeat split; [now apply firstWith_snoc | exact Hu |].
      rewrite filter_key_snoc, Hreq.
      destruct (String.eqb_spec (requestKey r) k) as [E|_];
        [congruence | now rewrite app_nil_r].
  - rewrite Hkeys. eapply ForallOrdPairs_impl; [|exact Hord].
    intros a b. apply seenBefore_snoc.
  - unfold JsMap.values in *. rewrite !map_app, !concat_app in *.
    simpl in *. rewrite <- Hperm.
    rewrite <- !app_assoc. apply Permutation_app_head.
    rewrite (app_assoc (requests g)). rewrite <- app_assoc.
    apply Permutation_app_head. apply Permutation_app_comm.
Qed.

(** The loop never throws, and after it the invariant holds of the whole
    list. *)
Lemma forEach_groupStep rest : forall p m,
  GroupsInv p m ->
  exists m', forEach groupStep rest m = Some m' /\ GroupsInv (p ++ rest) m'.
Proof.
  induction rest as [|r rest IH]; intros p m Hinv; simpl.
  - exists m. now rewrite app_nil_r.
  - destruct (groupStep_cases m r)
      as [[Hfresh ->] | (before & g & after & -> & _ & ->)].
    + destruct (IH _ _ (GroupsInv_open _ _ _ Hinv Hfresh)) as (m' & Hm' & Hi).
      exists m'. rewrite <- app_assoc in Hi. auto.
    + destruct (IH _ _ (GroupsInv_extend _ _ _ _ _ Hinv)) as (m' & Hm' & Hi).
      exists m'. rewrite <- app_assoc in Hi. auto.
Qed.

Lemma groupsMap_inv (reqs : list Request.t) :
  exists m, groupsMap reqs = Some m /\ GroupsInv reqs m.
Proof. apply (forEach_groupStep reqs [] JsMap.empty GroupsInv_empty). Qed.

Lemma groupedRequests_total (reqs : list Request.t) :
  exists m, groupsMap reqs = Some m /\
            groupedRequests reqs = Some (JsMap.values m) /\
            GroupsInv reqs m.
Proof.
  destruct (groupsMap_inv reqs) as (m & Hm & Hinv). exists m.
  unfold groupedRequests. rewrite Hm. auto.
Qed.

(** The key a group is shown under is the key it is filed under. *)
Lemma GroupsInv_groupKey p m k g :
  GroupsInv p m -> In (k, g) m -> groupKey g = k.
Proof.
  intros Hinv Hin.
  destruct (inv_group _ _ Hinv k g Hin) as (r & (pre & post & _ & Hk & _) & Hu & _).
  unfold groupKey. rewrite Hu. exact Hk.
Qed.

Lemma GroupsInv_keys p m :
  GroupsInv p m -> map groupKey (JsMap.values m) = JsMap.keys m.
Proof.
  intros Hinv. unfold JsMap.values, JsMap.keys. rewrite map_map.
  apply map_ext_in. intros [k g] Hin. simpl.
  eapply GroupsInv_groupKey; eauto.
Qed.

Lemma values_In (m : JsMap.t GroupedRequests) g :
  In g (JsMap.values m) -> exists k, In (k, g) m.
Proof.
  unfold JsMap.values. rewrite in_map_iff. intros ([k g'] & Hg & Hin).
  simpl in Hg. subst. eauto.
Qed.

(** The key of a user summary is its [_id] when that is a non-empty
    string, and the literal ["unknown"] when it is absent or empty. *)
Lemma userKey_of_id (u : User.t) (id : string) :
  User._id u = Some id -> id <> "" -> userKey u = id.
Proof.
  intros H Hid. unfold userKey, or_string. rewrite H.
  apply String.eqb_neq in Hid. now rewrite Hid.
Qed.

Lemma userKey_without_id (u : User.t) :
  User._id u = None \/ User._id u = Some "" -> userKey u = "unknown".
Proof. unfold userKey, or_string. intros [-> | ->]; reflexivity. Qed.

(** Three users, each with a request: three groups, in the order in
    which the users are first seen. *)
Example three_users_three_groups :
  option_map (map (fun g => (User._id (user g),
                             map Request._id (requests g))))
    (groupedRequests
       [plainRequest "1" (Reference "B") "pending" None;
        plainRequest "2"
          (Embedded (User.mk (Some "A") (Some "Ann") None None None None))
          "pending" None;
        plainRequest "3" (Reference "C") "pending" None;
        plainRequest "4" (Reference "A") "pending" None]) =
  Some [(Some "B", ["1"]); (Some "A", ["2"; "4"]); (Some "C", ["3"])].
Proof. reflexivity. Qed.

(** C2. Grouping a filtered sequence returns a list of groups with one
    group per distinct key [user._id || "unknown"] of its requests.  The
    key of a request is the identifier its user reference resolves to,
    when that is a non-empty string, and ["unknown"] otherwise; so two
    requests with different identifiers are never in one group, and two
    requests with the same identifier are in the same group.  Each
    group carries the user summary resolved from the first request of the
    sequence filed under its key (the embedded object, or the stub with
    only the identifier for a bare reference) and, in source order, the
    requests of the sequence filed under that key.  When a group stands
    before another, a request of its user stands in the sequence before
    every request of the other's user. *)
Theorem groupedRequests_by_user (filtered : list Request.t) :
  exists gs,
    groupedRequests filtered = Some gs /\
    NoDup (map groupKey gs) /\
    (forall k, In k (map groupKey gs) <->
               exists r, In r filtered /\ requestKey r = k) /\
    (forall g, In g gs ->
       exists r, firstWith (groupKey g) filtered r /\
         user g = getUser (Request.userId r) /\
         requests g =
           filter (fun x => String.eqb (requestKey x) (groupKey g)) filtered) /\
    (forall u, getUser (Embedded u) = u) /\
    (forall id, getUser (Reference id) =
                User.mk (Some id) None None None None None) /\
    (forall before g1 after g2,
       gs = before ++ g1 :: after -> In g2 after ->
       seenBefore filtered (groupKey g1) (groupKey g2)) /\
    (forall r id,
       User._id (getUser (Request.userId r)) = Some id -> id <> "" ->
       requestKey r = id) /\
    (forall r,
       User._id (getUser (Request.userId r)) = None \/
       User._id (getUser (Request.userId r)) = Some "" ->
       requestKey r = "unknown") /\
    (forall g id,
       User._id (user g) = Some id -> id <> "" -> groupKey g = id) /\
    (forall g,
       User._id (user g) = None \/ User._id (user g) = Some "" ->
       groupKey g = "unknown") /\
    (forall g r1 r2 id1 id2,
       In g gs -> In r1 (requests g) -> In r2 (requests g) ->
       User._id (getUser (Request.userId r1)) = Some id1 -> id1 <> "" ->
       User._id (getUser (Request.userId r2)) = Some id2 -> id2 <> "" ->
       id1 = id2) /\
    (forall r1 r2 id,
       In r1 filtered -> In r2 filtered ->
       User._id (getUser (Request.userId r1)) = Some id ->
       User._id (getUser (Request.userId r2)) = Some id -> id <> "" ->
       exists g,
         In g gs /\ groupKey g = id /\
         In r1 (requests g) /\ In r2 (requests g)).
Proof.
  destruct (groupedRequests_total filtered) as (m & _ & Hgs & Hinv).
  exists (JsMap.values m). split; [exact Hgs|].
  pose proof (GroupsInv_keys _ _ Hinv) as Hkeys.
  split; [|split; [|split; [|split; [|split; [|split; [|split;
    [|split; [|split; [|split; [|split]]]]]]]]]].
  - rewrite Hkeys. apply (inv_nodup _ _ Hinv).
  - intros k. split.
    + rewrite Hkeys. intros Hk. destruct (JsMap_keys_In _ _ Hk) as (g & Hin).
      destruct (inv_group _ _ Hinv k g Hin)
        as (r & (pre & post & -> & Hr & _) & _).
      exists r. split; [|exact Hr]. apply in_app_iff. simpl. auto.
    + rewrite Hkeys. intros (r & Hr & <-). now apply (inv_cover _ _ Hinv).
  - intros g Hg. destruct (values_In _ _ Hg) as (k & Hin).
    rewrite (GroupsInv_groupKey _ _ _ _ Hinv Hin).
    apply (inv_group _ _ Hinv k g Hin).
  - reflexivity.
  - reflexivity.
  - intros before g1 after g2 Hsplit Hg2.
    apply (ForallOrdPairs_split _ (map groupKey before) _ (map groupKey after)).
    + pose proof (inv_order _ _ Hinv) as Hord.
      rewrite <- Hkeys, Hsplit, map_app in Hord. exact Hord.
    + now apply in_map.
  - intros r id Hid Hne. now apply userKey_of_id.
  - intros r Hno. now apply userKey_without_id.
  - intros g id Hid Hne. now apply userKey_of_id.
  - intros g Hno. now apply userKey_without_id.
  - intros g r1 r2 id1 id2 Hg H1 H2 Hid1 Hne1 Hid2 Hne2.
    destruct (values_In _ _ Hg) as (k & Hin).
    destruct (inv_group _ _ Hinv k g Hin) as (_ & _ & _ & Hreq).
    rewrite Hreq in H1, H2.
    apply filter_In in H1 as [_ H1]. apply filter_In in H2 as [_ H2].
    apply String.eqb_eq in H1, H2.
    rewrite <- (userKey_of_id _ _ Hid1 Hne1), <- (userKey_of_id _ _ Hid2 Hne2).
    fold (requestKey r1) (requestKey r2). congruence.
  - intros r1 r2 id Hr1 Hr2 Hid1 Hid2 Hne.
    pose proof (userKey_of_id _ _ Hid1 Hne) as Hk1.
    pose proof (userKey_of_id _ _ Hid2 Hne) as Hk2.
    fold (requestKey r1) in Hk1. fold (requestKey r2) in Hk2.
    destruct (JsMap_keys_In _ _ (inv_cover _ _ Hinv r1 Hr1)) as (g & Hin).
    rewrite Hk1 in Hin.
    destruct (inv_group _ _ Hinv _ _ Hin)
      as (r0 & (pre & post & _ & Hr0 & _) & Hu & Hreq).
    exists g. split; [|split; [|split]].
    + apply in_map_iff. exists (id, g). auto.
    + unfold groupKey. rewrite Hu. exact Hr0.
    + rewrite Hreq. apply filter_In. split; [exact Hr1|].
      rewrite Hk1. apply String.eqb_refl.
    + rewrite Hreq. apply filter_In. split; [exact Hr2|].
      rewrite Hk2. apply String.eqb_refl.
Qed.

Lemma unresolved_key (r : Request.t) :
  unresolved (Request.userId r) -> requestKey r = "unknown".
Proof.
  unfold unresolved, requestKey, userKey, or_string.
  intros [-> | ->]; reflexivity.
Qed.

(** A bare empty reference and an embedded summary without [_id] share
    the ["unknown"] group, whose user is the one seen first. *)
Example unknown_bucket :
  option_map
    (map (fun kg => (fst kg, map Request._id (requests (snd kg)))))
    (groupsMap
       [plainRequest "1" (Reference "") "pending" None;
        plainRequest "2" (Reference "A") "pending" None;
        plainRequest "3"
          (Embedded (User.mk None (Some "Ann") None None None None))
          "pending" None]) =
  Some [("unknown", ["1"; "3"]); ("A", ["2"])].
Proof. reflexivity. Qed.

(** C6. Grouping never fails and drops nothing: the requests of all the
    groups together are the filtered sequence up to order; each request of
    the sequence is in the group filed under its key and in no group filed
    under another key; and a request whose user reference yields no
    identifier is in the group filed under ["unknown"]. *)
Theorem grouping_keeps_every_request (filtered : list Request.t) :
  exists m,
    groupsMap filtered = Some m /\
    groupedRequests filtered = Some (JsMap.values m) /\
    Permutation (concat (map requests (JsMap.values m))) filtered /\
    (forall r, In r filtered ->
       exists g, JsMap.get (requestKey r) m = Some g /\
         In r (requests g) /\
         forall k' g', In (k', g') m -> In r (requests g') ->
                       k' = requestKey r /\ g' = g) /\
    (forall r, In r filtered -> unresolved (Request.userId r) ->
       exists g, JsMap.get "unknown" m = Some g /\ In r (requests g)).
Proof.
  destruct (groupedRequests_total filtered) as (m & Hm & Hgs & Hinv).
  exists m. repeat split; [exact Hm | exact Hgs | apply (inv_perm _ _ Hinv) | |].
  - intros r Hr.
    destruct (JsMap_keys_In _ _ (inv_cover _ _ Hinv r Hr)) as (g & Hin).
    pose proof (JsMap_get_In _ _ _ (inv_nodup _ _ Hinv) Hin) as Hget.
    exists g. split; [exact Hget|].
    destruct (inv_group _ _ Hinv _ _ Hin) as (_ & _ & _ & Hreq).
    split.
    + rewrite Hreq. apply filter_In. split; [exact Hr|]. apply String.eqb_refl.
    + intros k' g' Hin' Hr'.
      destruct (inv_group _ _ Hinv _ _ Hin') as (_ & _ & _ & Hreq').
      rewrite Hreq' in Hr'. apply filter_In in Hr' as [_ E].
      apply String.eqb_eq in E. subst k'. split; [reflexivity|].
      pose proof (JsMap_get_In _ _ _ (inv_nodup _ _ Hinv) Hin') as Hget'.
      congruence.
  - intros r Hr Hun.
    destruct (JsMap_keys_In _ _ (inv_cover _ _ Hinv r Hr)) as (g & Hin).
    rewrite (unresolved_key r Hun) in Hin.
    exists g. split; [apply (JsMap_get_In _ _ _ (inv_nodup _ _ Hinv) Hin)|].
    destruct (inv_group _ _ Hinv _ _ Hin) as (_ & _ & _ & ->).
    apply filter_In. split; [exact Hr|].
    rewrite (unresolved_key r Hun). reflexivity.
Qed.

(** ** Pagination *)

Section Pages.
Local Open Scope Z_scope.

(** Rounding the quotient of two integers up, in integer arithmetic. *)
Lemma Math_ceil_div (n s : Z) :
  0 < s -> Math_ceil (inject_Z n / inject_Z s) = (n + s - 1) / s.
Proof.
  intros Hs. destruct s as [|d|d]; try lia.
  unfold Math_ceil, Qceiling, Qfloor, Qdiv, Qmult, Qinv, Qopp, inject_Z.
  simpl. rewrite Z.mul_1_r.
  pose proof (Z.div_mod (- n) (Z.pos d) ltac:(lia)) as H1.
  pose proof (Z.mod_pos_bound (- n) (Z.pos d) ltac:(lia)) as H2.
  apply (Z.div_unique _ _ _ (Z.pos d - 1 - (- n) mod Z.pos d)); lia.
Qed.

Example slice_inside : Array_slice [1; 2; 3; 4; 5]%nat 1 3 = [2; 3]%nat.
Proof. reflexivity. Qed.

Example slice_past_end : Array_slice [1; 2; 3; 4; 5]%nat 3 13 = [4; 5]%nat.
Proof. reflexivity. Qed.

Example slice_from_end : Array_slice [1; 2; 3; 4; 5]%nat (-2) 5 = [4; 5]%nat.
Proof. reflexivity. Qed.

Example totalPage_25 : totalPage localLimit (repeat sampleGroup 25) = 3.
Proof. reflexivity. Qed.

Lemma firstn_min_length {A : Type} (n : nat) (l : list A) :
  firstn (Nat.min n (length l)) l = firstn n l.
Proof.
  destruct (Nat.le_ge_cases n (length l)) as [H|H].
  - now rewrite Nat.min_l.
  - rewrite Nat.min_r by exact H. rewrite firstn_all.
    symmetry. now apply firstn_all2.
Qed.

(** A slice from a start inside or beyond the array, of a positive width,
    skips [start] elements and takes up to [size] of the rest. *)
Lemma Array_slice_window {A : Type} (l : list A) (start size : Z) :
  0 <= start -> 0 < size ->
  Array_slice l start (start + size) =
  firstn (Z.to_nat size) (skipn (Z.to_nat start) l).
Proof.
  intros Hstart Hsize. unfold Array_slice.
  destruct (Z.ltb_spec start 0) as [?|_]; [lia|].
  destruct (Z.ltb_spec (start + size) 0) as [?|_]; [lia|].
  destruct (Z_le_gt_dec (Z.of_nat (length l)) start) as [Hout|Hin].
  - rewrite !skipn_all2 by lia. now rewrite !firstn_nil.
  - rewrite (Z.min_l start) by lia.
    rewrite <- (firstn_min_length (Z.to_nat size)).
    f_equal. rewrite length_skipn. lia.
Qed.

Lemma groupsToDisplay_window (pageSize p : Z) (groups : list GroupedRequests) :
  0 < pageSize -> 1 <= p ->
  groupsToDisplay pageSize p groups =
  firstn (Z.to_nat pageSize) (skipn (Z.to_nat ((p - 1) * pageSize)) groups).
Proof.
  intros Hs Hp. unfold groupsToDisplay, endIndex, startIndex.
  apply Array_slice_window; nia.
Qed.

Lemma totalPage_bracket (pageSize : Z) (groups : list GroupedRequests) :
  0 < pageSize ->
  (totalPage pageSize groups - 1) * pageSize < totalGroups groups
    <= totalPage pageSize groups * pageSize.
Proof.
  intros Hs. unfold totalPage. rewrite Math_ceil_div by exact Hs.
  set (n := totalGroups groups).
  pose proof (Z.div_mod (n + pageSize - 1) pageSize ltac:(lia)) as H1.
  pose proof (Z.mod_pos_bound (n + pageSize - 1) pageSize Hs) as H2.
  nia.
Qed.

(** C3. Pagination ranges over the list of groups.  For a positive page
    size, the number of pages is the ceiling of the number of groups
    divided by the page size (the least count of pages that holds all the
    groups; zero for no group), and the page [p], counted from 1, shows
    the groups at the indices from [(p-1)*pageSize] up to, not including,
    [p*pageSize], which are at most [pageSize] groups whatever the number
    of requests in them.  With 25 groups and page size 10 there are 3
    pages and page 3 shows 5 groups. *)
Theorem pagination_over_groups (pageSize p : Z)
  (groups : list GroupedRequests) :
  0 < pageSize -> 1 <= p ->
  ((totalPage pageSize groups - 1) * pageSize < totalGroups groups
     <= totalPage pageSize groups * pageSize) /\
  totalGroups groups = Z.of_nat (length groups) /\
  (groups = [] -> totalPage pageSize groups = 0) /\
  (forall i : nat,
     nth_error (groupsToDisplay pageSize p groups) i =
     if Z.of_nat i <? pageSize
     then nth_error groups (Z.to_nat ((p - 1) * pageSize) + i)
     else None) /\
  (length (groupsToDisplay pageSize p groups) <= Z.to_nat pageSize)%nat /\
  (length groups = 25%nat ->
     totalPage 10 groups = 3 /\
     length (groupsToDisplay 10 3 groups) = 5%nat).
Proof.
  intros Hs Hp. split; [now apply totalPage_bracket|].
  split; [reflexivity|]. split; [|split; [|split]].
  - intros ->. unfold totalPage, totalGroups. simpl.
    rewrite Math_ceil_div by exact Hs. apply Z.div_small. lia.
  - intros i. rewrite groupsToDisplay_window by assumption.
    rewrite nth_error_firstn, nth_error_skipn.
    destruct (Z.ltb_spec (Z.of_nat i) pageSize) as [Hi|Hi];
      destruct (Nat.ltb_spec i (Z.to_nat pageSize)) as [Hi'|Hi'];
      try reflexivity; lia.
  - rewrite groupsToDisplay_window by assumption.
    rewrite length_firstn. lia.
  - intros Hlen. split.
    + pose proof (totalPage_bracket 10 groups ltac:(lia)) as H.
      unfold totalGroups in H. rewrite Hlen in H. lia.
    + rewrite groupsToDisplay_window by lia.
      rewrite length_firstn, length_skipn, Hlen. reflexivity.
Qed.

(** The third page of 25 groups, ten to a page. *)
Lemma pagination_over_groups_witness :
  totalPage 10 (repeat sampleGroup 25) = 3 /\
  length (groupsToDisplay 10 3 (repeat sampleGroup 25)) = 5%nat.
Proof.
  apply (pagination_over_groups 10 3 (repeat sampleGroup 25));
    [lia | lia | reflexivity].
Defined.

End Pages.

(** A page that starts at or after the end of the list shows nothing. *)
Lemma groupsToDisplay_beyond (pageSize p : Z) (groups : list GroupedRequests) :
  (0 < pageSize)%Z -> (1 <= p)%Z ->
  (totalGroups groups <= (p - 1) * pageSize)%Z ->
  groupsToDisplay pageSize p groups = [].
Proof.
  intros Hs Hp Hlen. rewrite groupsToDisplay_window by assumption.
  unfold totalGroups in Hlen. rewrite skipn_all2 by lia. apply firstn_nil.
Qed.

Lemma render_some (st : State) (q : Queries) (groups : list GroupedRequests) :
  groupedRequests (filteredRequests (allRequests st q) (activeStatusTab st))
    = Some groups ->
  exists v, render st q = Some v /\
    badges v = map (fun tab =>
                      (fst tab, getTabCount (allRequests st q) (snd tab)))
                 statusTabs /\
    body v =
      renderBody st q (groupsToDisplay localLimit (currentPage st) groups).
Proof.
  intros Hg. unfold render. rewrite Hg. eexists. split; [reflexivity|].
  split; reflexivity.
Qed.

(** C9. The page number is used as it stands, without a bound from the
    data: for a page [p >= 1] whose first index [(p-1)*pageSize] is at or
    beyond the number of groups, the list of groups to display is empty,
    for every positive page size; the render succeeds and, once loaded
    without error, its body is the "no requests found" message, whether
    or not earlier pages hold groups. *)
Theorem stale_page_shows_nothing (st : State) (q : Queries)
  (groups : list GroupedRequests) :
  groupedRequests (filteredRequests (allRequests st q) (activeStatusTab st))
    = Some groups ->
  (1 <= currentPage st)%Z ->
  (totalGroups groups <= (currentPage st - 1) * localLimit)%Z ->
  isLoading (activeQuery st q) = false ->
  isError (activeQuery st q) = false ->
  groupsToDisplay localLimit (currentPage st) groups = [] /\
  (forall pageSize, (0 < pageSize)%Z ->
     (totalGroups groups <= (currentPage st - 1) * pageSize)%Z ->
     groupsToDisplay pageSize (currentPage st) groups = []) /\
  option_map body (render st q) =
    Some (NoRequestsFound (activeStatusTab st) (activeServiceTab st)).
Proof.
  intros Hg Hp Hlen Hload Herr.
  assert (Hnil : groupsToDisplay localLimit (currentPage st) groups = []).
  { apply groupsToDisplay_beyond; [reflexivity | exact Hp | exact Hlen]. }
  split; [exact Hnil|]. split.
  - intros pageSize Hs Hle. now apply groupsToDisplay_beyond.
  - destruct (render_some st q groups Hg) as (v & -> & _ & Hbody).
    simpl. rewrite Hbody, Hnil. unfold renderBody.
    now rewrite Hload, Herr.
Qed.

(** The second page of the pending requests of the scenario, which make
    one group. *)
Lemma stale_page_shows_nothing_witness :
  option_map body
    (render (mkState POP TabStatus.Pending 2 1) scenarioQueries) =
  Some (NoRequestsFound TabStatus.Pending POP).
Proof.
  apply (stale_page_shows_nothing
           (mkState POP TabStatus.Pending 2 1) scenarioQueries
           [mkGroup (User.stub "A")
              [plainRequest "1" (Reference "A") "pending" None;
               plainRequest "3" (Reference "A") "pending" None]]);
    [reflexivity | unfold currentPage; simpl; lia
    | unfold currentPage, totalGroups; simpl; lia
    | reflexivity | reflexivity].
Defined.

(** The same data on page 1: the group of user A is shown. *)
Example first_page_of_scenario :
  option_map body (render initialState scenarioQueries) =
  Some (GroupCards
          [mkCard "A" (User.stub "A") 2
             [mkRow "1" [DetailsLink "/dashboard/our-service/1?type=pop";
                         AcceptButton "1"; DeclineButton "1"];
              mkRow "3" [DetailsLink "/dashboard/our-service/3?type=pop";
                         AcceptButton "3"; DeclineButton "3"]]]).
Proof. reflexivity. Qed.

(** Two clicks on Next over 25 groups lead to page 3; when the data then
    shrinks to the scenario the page number stays, and the body is the
    "no requests found" message. *)
Example page_kept_after_shrink :
  currentPage (clickNext 3 (clickNext 3 initialState)) = 3%Z /\
  option_map body
    (render (clickNext 3 (clickNext 3 initialState)) scenarioQueries) =
  Some (NoRequestsFound TabStatus.Pending POP).
Proof. split; reflexivity. Qed.

(** ** Tab counts *)

Lemma getTabCount_filter (reqs : list Request.t) (tab : TabStatus.t) :
  getTabCount reqs tab = length (filter (statusMatches tab) reqs).
Proof. destruct tab; reflexivity. Qed.

Lemma allRequests_setPage st q page :
  allRequests (setPage st page) q = allRequests st q.
Proof.
  unfold allRequests, activeQuery, setPage.
  destruct (ServiceTab_eqb (activeServiceTab st) POP) eqn:E; simpl;
    now rewrite E.
Qed.

Lemma render_badges (st : State) (q : Queries) :
  option_map badges (render st q) =
  Some (map (fun tab => (fst tab, getTabCount (allRequests st q) (snd tab)))
          statusTabs).
Proof.
  destruct (groupedRequests_total
              (filteredRequests (allRequests st q) (activeStatusTab st)))
    as (m & _ & Hg & _).
  destruct (render_some st q _ Hg) as (v & -> & Hb & _).
  simpl. now rewrite Hb.
Qed.

(** C5. The count of a tab is the number of requests of the full list
    that meet the filter condition of the tab; the badges of a render are
    these counts over the whole list of the active category, and they are
    the same for every page number and every selected status tab, hence
    for every choice of displayed groups. *)
Theorem tab_counts_over_all_requests :
  (forall reqs tab,
     getTabCount reqs tab = length (filter (statusMatches tab) reqs)) /\
  (forall st q,
     option_map badges (render st q) =
     Some (map (fun tab =>
                  (fst tab,
                   length (filter (statusMatches (snd tab))
                             (allRequests st q))))
             statusTabs)) /\
  (forall st q page,
     option_map badges (render (setPage st page) q) =
     option_map badges (render st q)) /\
  (forall st q status pop cocp,
     option_map badges
       (render (mkState (activeServiceTab st) status pop cocp) q) =
     option_map badges (render st q)).
Proof.
  split; [exact getTabCount_filter|]. split; [|split].
  - intros st q. rewrite render_badges. reflexivity.
  - intros st q page. rewrite !render_badges.
    now rewrite allRequests_setPage.
  - intros st q status pop cocp. rewrite !render_badges. reflexivity.
Qed.

(** The Pending badge of the scenario counts its two pending requests,
    which make one group. *)
Example badge_counts_requests :
  getTabCount scenario TabStatus.Pending = 2%nat /\
  option_map (@length _) (groupedRequests
                       (filteredRequests scenario TabStatus.Pending))
    = Some 1%nat.
Proof. split; reflexivity. Qed.

(** A request that meets the condition of no tab, or of one. *)
Lemma tab_counts_le_length (reqs : list Request.t) :
  (getTabCount reqs TabStatus.Pending + getTabCount reqs TabStatus.Accept +
   getTabCount reqs TabStatus.Decline + getTabCount reqs TabStatus.Done
   <= length reqs)%nat.
Proof.
  rewrite !getTabCount_filter.
  induction reqs as [|x reqs IH]; simpl; [lia|].
  unfold ServiceStatus.Pending, ServiceStatus.Accept, ServiceStatus.Decline.
  destruct (String.eqb_spec (Request.status x) "pending") as [E|_];
    [rewrite E; simpl; lia|].
  destruct (String.eqb_spec (Request.status x) "decline") as [E|_];
    [rewrite E; simpl; lia|].
  destruct (String.eqb (Request.status x) "accept"),
    (opt_eqb (Request.deliveryStatus x) DeliveryStatus.Done); simpl; lia.
Qed.

Lemma statusMatches_known (tab : TabStatus.t) (r : Request.t) :
  statusMatches tab r = true ->
  Request.status r = ServiceStatus.Pending \/
  Request.status r = ServiceStatus.Accept \/
  Request.status r = ServiceStatus.Decline.
Proof.
  destruct tab; intros H.
  - apply statusMatches_Pending in H. auto.
  - apply statusMatches_Accept in H. tauto.
  - apply statusMatches_Decline in H. auto.
  - apply statusMatches_Done in H. tauto.
Qed.

(** C10. A request whose approval status is none of pending, accept and
    decline meets the condition of no tab: it is in no filtered list, it
    adds nothing to the count of any tab, and a list that holds it has
    four tab counts that sum to less than its length. *)
Theorem other_status_is_invisible (r : Request.t) :
  Request.status r <> ServiceStatus.Pending ->
  Request.status r <> ServiceStatus.Accept ->
  Request.status r <> ServiceStatus.Decline ->
  (forall tab, statusMatches tab r = false) /\
  (forall reqs tab, ~ In r (filteredRequests reqs tab)) /\
  (forall pre post tab,
     getTabCount (pre ++ r :: post) tab = getTabCount (pre ++ post) tab) /\
  (forall pre post,
     (getTabCount (pre ++ r :: post) TabStatus.Pending +
      getTabCount (pre ++ r :: post) TabStatus.Accept +
      getTabCount (pre ++ r :: post) TabStatus.Decline +
      getTabCount (pre ++ r :: post) TabStatus.Done
      < length (pre ++ r :: post))%nat).
Proof.
  intros Hp Ha Hd.
  assert (Hno : forall tab, statusMatches tab r = false).
  { intros tab. destruct (statusMatches tab r) eqn:E; [|reflexivity].
    apply statusMatches_known in E. tauto. }
  assert (Hcount : forall pre post tab,
            getTabCount (pre ++ r :: post) tab = getTabCount (pre ++ post) tab).
  { intros pre post tab. rewrite !getTabCount_filter, !filter_app. simpl.
    now rewrite Hno. }
  repeat split; [exact Hno | | exact Hcount |].
  - intros reqs tab Hin. apply filter_In in Hin as [_ Hin].
    rewrite Hno in Hin. discriminate.
  - intros pre post. rewrite !Hcount.
    pose proof (tab_counts_le_length (pre ++ post)) as Hle.
    rewrite !length_app in *. cbn [length]. lia.
Qed.

(** A request marked "cancelled" among the requests of the scenario. *)
Lemma other_status_is_invisible_witness :
  (getTabCount (scenario ++ cancelledRequest :: []) TabStatus.Pending +
   getTabCount (scenario ++ cancelledRequest :: []) TabStatus.Accept +
   getTabCount (scenario ++ cancelledRequest :: []) TabStatus.Decline +
   getTabCount (scenario ++ cancelledRequest :: []) TabStatus.Done
   < length (scenario ++ cancelledRequest :: []))%nat.
Proof.
  apply (other_status_is_invisible cancelledRequest); discriminate.
Defined.

Example cancelled_counts :
  map (getTabCount (scenario ++ [cancelledRequest])) TabStatus.all =
  [2; 0; 0; 1]%nat.
Proof. reflexivity. Qed.

(** ** Handlers *)

(** C7. Both tab handlers leave the page of the active service category
    at 1: a change of the service category selects the category and sets
    both page numbers to 1; a change of the status tab selects the tab,
    keeps the category and sets the page number of that category to 1. *)
Theorem tab_change_resets_page :
  (forall tab st,
     activeServiceTab (handleServiceTabChange tab st) = tab /\
     currentPage (handleServiceTabChange tab st) = 1%Z) /\
  (forall status st,
     activeStatusTab (handleStatusTabChange status st) = status /\
     activeServiceTab (handleStatusTabChange status st) =
       activeServiceTab st /\
     currentPage (handleStatusTabChange status st) = 1%Z).
Proof.
  split.
  - intros tab st. split; [reflexivity|]. now destruct tab.
  - intros status [[] s pp cp]; repeat split.
Qed.

Example third_page_then_done_tab :
  currentPage (handleStatusTabChange TabStatus.Done
                 (mkState COCP TabStatus.Pending 1 3)) = 1%Z.
Proof. reflexivity. Qed.

(** ** Row actions and deletion *)

Lemma rowActions_delete (tab : ServiceTab) (req : Request.t) (id : string) :
  In (DeleteButton id) (rowActions tab req) <->
  (Request.status req = ServiceStatus.Accept \/
   Request.status req = ServiceStatus.Decline) /\
  id = Request._id req.
Proof.
  unfold rowActions, ServiceStatus.Pending, ServiceStatus.Accept,
    ServiceStatus.Decline.
  rewrite in_app_iff.
  destruct (String.eqb_spec (Request.status req) "pending") as [Ep|Ep];
    destruct (String.eqb_spec (Request.status req) "accept") as [Ea|Ea];
    destruct (String.eqb_spec (Request.status req) "decline") as [Ed|Ed];
    simpl; split; intros H;
    repeat match goal with
           | H : _ \/ _ |- _ => destruct H
           | H : _ /\ _ |- _ => destruct H
           | H : False |- _ => destruct H
           | H : DeleteButton _ = DeleteButton _ |- _ => inversion H; clear H
           | H : _ = DeleteButton _ |- _ => discriminate H
           end;
    subst; try congruence; auto.
Qed.

(** What [handleDelete] does against a world: the confirmation dialog,
    and the mutation only on a confirmed answer. *)
Lemma run_handleDelete (w : World) (tab : ServiceTab) (id : string) :
  let m := if ServiceTab_eqb tab POP then deletePop id else deleteCocp id in
  (isConfirmed (answerDialog w confirmDelete) = false /\
   run w (handleDelete tab id) =
     [Dialog confirmDelete (answerDialog w confirmDelete)]) \/
  (answerDialog w confirmDelete = mkSwalResult true /\
   exists rest,
     run w (handleDelete tab id) =
       Dialog confirmDelete (mkSwalResult true) :: Dispatch m :: rest /\
     forall m', ~ In (Dispatch m') rest).
Proof.
  simpl. unfold handleDelete. simpl.
  destruct (answerDialog w confirmDelete) as [[|]] eqn:Hans; simpl.
  - right. split; [reflexivity|].
    destruct tab; simpl;
      match goal with
      | |- context [answerMutation w ?m] =>
          destruct (answerMutation w m); simpl
      end;
      eexists; (split; [reflexivity|]);
      intros m' Hin; simpl in Hin;
      repeat (destruct Hin as [Hin|Hin]; [discriminate Hin|]);
      exact Hin.
  - left. split; reflexivity.
Qed.

Lemma run_handleStatusUpdate (w : World) (tab : ServiceTab) (id : string)
  (status : Decision) (m : Mutation) :
  In (Dispatch m) (run w (handleStatusUpdate tab id status)) ->
  isDelete m = false.
Proof.
  unfold handleStatusUpdate. simpl.
  destruct tab; simpl;
    match goal with
    | |- context [answerMutation w ?m0] => destruct (answerMutation w m0); simpl
    end;
    intros Hin;
    repeat (destruct Hin as [Hin|Hin];
            [first [discriminate Hin | now inversion Hin]|]);
    destruct Hin.
Qed.

(** C8. A row offers the delete action exactly when the approval status
    of its request is accept or decline, so never for a pending request,
    in the action cell and in every rendered group.  The only click that
    dispatches a delete mutation is the click on a delete button, and it
    does so after the confirmation dialog, which has a cancel button, was
    answered with a confirmation; on any other answer nothing is
    dispatched. *)
Theorem delete_needs_decision_and_confirmation :
  (forall tab req id,
     In (DeleteButton id) (rowActions tab req) <->
     (Request.status req = ServiceStatus.Accept \/
      Request.status req = ServiceStatus.Decline) /\
     id = Request._id req) /\
  (forall tab req id,
     Request.status req = ServiceStatus.Pending ->
     ~ In (DeleteButton id) (rowActions tab req)) /\
  (forall tab group row id,
     In row (rows (renderGroup tab group)) ->
     In (DeleteButton id) (actions row) ->
     exists req, In req (requests group) /\ Request._id req = id /\
       (Request.status req = ServiceStatus.Accept \/
        Request.status req = ServiceStatus.Decline)) /\
  (forall w tab a m,
     In (Dispatch m) (run w (onClick tab a)) -> isDelete m = true ->
     exists id rest,
       a = DeleteButton id /\
       (m = deletePop id \/ m = deleteCocp id) /\
       showCancelButton confirmDelete = true /\
       answerDialog w confirmDelete = mkSwalResult true /\
       run w (onClick tab a) =
         Dialog confirmDelete (mkSwalResult true) :: Dispatch m :: rest) /\
  (forall w tab id,
     isConfirmed (answerDialog w confirmDelete) = false ->
     run w (handleDelete tab id) =
       [Dialog confirmDelete (answerDialog w confirmDelete)]).
Proof.
  split; [exact rowActions_delete|]. split; [|split; [|split]].
  - intros tab req id Hp Hin. apply rowActions_delete in Hin.
    destruct Hin as [[H|H] _]; rewrite Hp in H; discriminate.
  - intros tab group row id Hrow Hdel. simpl in Hrow.
    apply in_map_iff in Hrow as (req & <- & Hreq). simpl in Hdel.
    apply rowActions_delete in Hdel as [Hst ->]. eauto.
  - intros w tab a m Hin Hdel. destruct a as [href|id|id|id].
    + destruct Hin.
    + apply run_handleStatusUpdate in Hin. congruence.
    + apply run_handleStatusUpdate in Hin. congruence.
    + change (onClick tab (DeleteButton id)) with (handleDelete tab id) in *.
      destruct (run_handleDelete w tab id)
        as [[_ Hrun] | [Hans (rest & Hrun & Hrest)]];
        rewrite Hrun in Hin |- *.
      * destruct Hin as [Hin|[]]. discriminate Hin.
      * destruct Hin as [Hin|[Hin|Hin]];
          [discriminate Hin | | now apply Hrest in Hin].
        inversion Hin; subst m. exists id, rest.
        repeat split; auto. destruct tab; auto.
  - intros w tab id Hno.
    destruct (run_handleDelete w tab id) as [[_ Hrun] | [Hans _]];
      [exact Hrun|]. rewrite Hans in Hno. discriminate.
Qed.

(** A confirmed and a cancelled deletion of a POP request. *)
Example confirmed_delete :
  run (mkWorld (fun _ => mkSwalResult true) (fun _ => Fulfilled None))
      (handleDelete POP "7") =
  [Dialog confirmDelete (mkSwalResult true);
   Dispatch (deletePop "7");
   Toast true "Request deleted successfully!";
   Dialog deletedNotice (mkSwalResult true)].
Proof. reflexivity. Qed.

Example cancelled_delete :
  run (mkWorld (fun _ => mkSwalResult false) (fun _ => Fulfilled None))
      (handleDelete POP "7") =
  [Dialog confirmDelete (mkSwalResult false)].
Proof. reflexivity. Qed.

(** * Further properties of the page *)

(** ** The pages of a list of groups *)

Lemma firstn_then_window {A : Type} (a b : nat) (l : list A) :
  firstn a l ++ firstn b (skipn a l) = firstn (a + b) l.
Proof.
  revert l. induction a as [|a IH]; intros l; simpl; [reflexivity|].
  destruct l as [|x l]; simpl.
  - now rewrite firstn_nil.
  - now rewrite IH.
Qed.

Lemma windows_concat {A : Type} (n k : nat) (l : list A) :
  concat (map (fun i => firstn n (skipn (i * n) l)) (seq 0 k)) =
  firstn (k * n) l.
Proof.
  induction k as [|k IH]; [reflexivity|].
  rewrite seq_S, map_app, concat_app, IH. simpl.
  rewrite app_nil_r, firstn_then_window. f_equal. lia.
Qed.

Lemma In_firstn {A : Type} (n : nat) (l : list A) x :
  In x (firstn n l) -> In x l.
Proof.
  intros H. rewrite <- (firstn_skipn n l). apply in_app_iff. auto.
Qed.

Lemma In_skipn {A : Type} (n : nat) (l : list A) x :
  In x (skipn n l) -> In x l.
Proof.
  intros H. rewrite <- (firstn_skipn n l). apply in_app_iff. auto.
Qed.

Lemma Array_slice_In {A : Type} (l : list A) (a b : Z) x :
  In x (Array_slice l a b) -> In x l.
Proof. unfold Array_slice. intros H. eapply In_skipn, In_firstn, H. Qed.

Lemma NoDup_firstn {A : Type} (n : nat) (l : list A) :
  NoDup l -> NoDup (firstn n l).
Proof.
  intros H. rewrite <- (firstn_skipn n l) in H.
  eapply NoDup_app_remove_r, H.
Qed.

Lemma NoDup_skipn {A : Type} (n : nat) (l : list A) :
  NoDup l -> NoDup (skipn n l).
Proof.
  intros H. rewrite <- (firstn_skipn n l) in H.
  eapply NoDup_app_remove_l, H.
Qed.

Section PageFacts.
Local Open Scope Z_scope.

Lemma totalPage_nonneg (pageSize : Z) (groups : list GroupedRequests) :
  0 < pageSize -> 0 <= totalPage pageSize groups.
Proof.
  intros Hs. pose proof (totalPage_bracket pageSize groups Hs) as H.
  unfold totalGroups in H. nia.
Qed.

Lemma groupsToDisplay_length (pageSize p : Z) (groups : list GroupedRequests) :
  0 < pageSize -> 1 <= p ->
  Z.of_nat (length (groupsToDisplay pageSize p groups)) =
  Z.max 0 (Z.min pageSize (totalGroups groups - (p - 1) * pageSize)).
Proof.
  intros Hs Hp. rewrite groupsToDisplay_window by assumption.
  rewrite length_firstn, length_skipn. unfold totalGroups. nia.
Qed.

(** X1. For a positive page size the pages 1 to [totalPage], one after
    the other, are the list of groups: every group is shown on a page, in
    its place, and none twice. *)
Theorem pages_cover_groups (pageSize : Z) (groups : list GroupedRequests) :
  0 < pageSize ->
  concat (map (fun p => groupsToDisplay pageSize p groups)
            (pageNumbers (totalPage pageSize groups))) = groups.
Proof.
  intros Hs. unfold pageNumbers. rewrite <- seq_shift, !map_map.
  pose proof (totalPage_bracket pageSize groups Hs) as Hb.
  pose proof (totalPage_nonneg pageSize groups Hs) as Hn.
  set (k := Z.to_nat (totalPage pageSize groups)) in *.
  rewrite (map_ext_in _
             (fun i => firstn (Z.to_nat pageSize)
                         (skipn (i * Z.to_nat pageSize) groups))).
  - rewrite windows_concat. apply firstn_all2.
    unfold totalGroups in Hb. nia.
  - intros i _. rewrite groupsToDisplay_window by lia.
    do 2 f_equal. nia.
Qed.

Lemma pages_cover_groups_witness :
  concat (map (fun p => groupsToDisplay 10 p (repeat sampleGroup 25))
            (pageNumbers (totalPage 10 (repeat sampleGroup 25)))) =
  repeat sampleGroup 25.
Proof. apply (pages_cover_groups 10 (repeat sampleGroup 25)). lia. Defined.

(** X2. For a positive page size and a page [p >= 1]: the page shows no
    group exactly when [p] is beyond [totalPage]; every page before the
    last shows [pageSize] groups, and the last one between 1 and
    [pageSize]. *)
Theorem page_sizes (pageSize p : Z) (groups : list GroupedRequests) :
  0 < pageSize -> 1 <= p ->
  (groupsToDisplay pageSize p groups = [] <->
     totalPage pageSize groups < p) /\
  (p < totalPage pageSize groups ->
     Z.of_nat (length (groupsToDisplay pageSize p groups)) = pageSize) /\
  (p = totalPage pageSize groups ->
     1 <= Z.of_nat (length (groupsToDisplay pageSize p groups)) <= pageSize).
Proof.
  intros Hs Hp.
  pose proof (totalPage_bracket pageSize groups Hs) as Hb.
  pose proof (groupsToDisplay_length pageSize p groups Hs Hp) as Hlen.
  split; [|split].
  - rewrite <- length_zero_iff_nil. split; intros H; nia.
  - intros Hlt. nia.
  - intros ->. nia.
Qed.

Lemma page_sizes_witness :
  Z.of_nat (length (groupsToDisplay 10 2 (repeat sampleGroup 25))) = 10.
Proof.
  apply (page_sizes 10 2 (repeat sampleGroup 25)); [lia | lia | reflexivity].
Defined.

End PageFacts.

(** ** The pager buttons *)

Section Pager.
Local Open Scope Z_scope.

Lemma currentPage_setPage (st : State) (page : Z) :
  currentPage (setPage st page) = page /\
  otherPage (setPage st page) = otherPage st /\
  activeServiceTab (setPage st page) = activeServiceTab st /\
  activeStatusTab (setPage st page) = activeStatusTab st.
Proof. destruct st as [[] s pp cp]; repeat split. Qed.

(** The pager is rendered only over more than one page. *)
Lemma render_pager (st : State) (q : Queries) (v : View) (pg : Z * Z) :
  render st q = Some v -> pager v = Some pg ->
  fst pg = currentPage st /\ 1 < snd pg.
Proof.
  unfold render.
  destruct (groupedRequests _) as [groups|]; [|discriminate].
  intros [= <-]. simpl.
  destruct (negb _ && negb _ && (1 <? totalPage localLimit groups)) eqn:E;
    [|discriminate].
  intros [= <-]. simpl. split; [reflexivity|].
  apply andb_true_iff in E as [_ E]. now apply Z.ltb_lt.
Qed.

(** X3. In every state the page can reach from its initial state, by
    clicks on the service cards, the status tabs and the rendered, enabled
    pager buttons, over any query results: the page number of the shown
    category is at least 1, and the page number of the other category
    is 1. *)
Theorem reachable_pages (st : State) :
  reachable st -> 1 <= currentPage st /\ otherPage st = 1.
Proof.
  induction 1 as [|q st st' _ [IHcur IHoth] Hstep]; [split; reflexivity|].
  destruct Hstep as [tab st|status st|st v pg Hr Hp _|st v pg Hr Hp _].
  - destruct tab; split; reflexivity.
  - destruct st as [[] s pp cp]; simpl in *; split;
      first [reflexivity | assumption | lia].
  - unfold clickPrevious.
    destruct (currentPage_setPage st (Z.max 1 (currentPage st - 1)))
      as (-> & -> & _). split; [lia | exact IHoth].
  - unfold clickNext. destruct (render_pager _ _ _ _ Hr Hp) as [_ Hpages].
    destruct (currentPage_setPage st (Z.min (snd pg) (currentPage st + 1)))
      as (-> & -> & _). split; [lia | exact IHoth].
Qed.

(** The state after the Pending tab of COCP was opened and left again. *)
Lemma reachable_pages_witness :
  1 <= currentPage (handleServiceTabChange POP
                      (handleStatusTabChange TabStatus.Done
                         (handleServiceTabChange COCP initialState))).
Proof.
  apply reachable_pages.
  eapply (reach_step scenarioQueries); [|apply step_service].
  eapply (reach_step scenarioQueries); [|apply step_status].
  eapply (reach_step scenarioQueries); [|apply step_service].
  apply reach_init.
Defined.

(** X4. From every state, also one with a stale page number, a click on
    Next leaves the page number at most [totalPage] and a click on
    Previous at least 1, and neither button touches the tabs or the page
    number of the other category.  From a page between 1 and
    [totalPage], an enabled Next shows the following page, still in that
    range, and Previous after Next restores the state; from a page of at
    least 1, an enabled Previous shows the preceding page, still at
    least 1. *)
Theorem pager_clicks (totalPage : Z) (st : State) (q : Queries) :
  currentPage (clickNext totalPage st) <= totalPage /\
  1 <= currentPage (clickPrevious st) /\
  otherPage (clickNext totalPage st) = otherPage st /\
  otherPage (clickPrevious st) = otherPage st /\
  activeServiceTab (clickNext totalPage st) = activeServiceTab st /\
  activeStatusTab (clickNext totalPage st) = activeStatusTab st /\
  activeServiceTab (clickPrevious st) = activeServiceTab st /\
  activeStatusTab (clickPrevious st) = activeStatusTab st /\
  (1 <= currentPage st <= totalPage ->
   nextDisabled totalPage st q = false ->
     currentPage (clickNext totalPage st) = currentPage st + 1 /\
     currentPage st + 1 <= totalPage /\
     clickPrevious (clickNext totalPage st) = st) /\
  (1 <= currentPage st ->
   previousDisabled st q = false ->
     currentPage (clickPrevious st) = currentPage st - 1 /\
     1 <= currentPage st - 1).
Proof.
  destruct st as [[] s pp cp];
    cbv [clickNext clickPrevious nextDisabled previousDisabled currentPage
         otherPage setPage ServiceTab_eqb activeServiceTab activeStatusTab
         popPage cocpPage] in *.
  all: repeat match goal with |- _ /\ _ => split end;
    try reflexivity; try lia.
  all: intros Hrange Hen; apply orb_false_iff in Hen as [Hen _];
    apply Z.eqb_neq in Hen;
    repeat match goal with |- _ /\ _ => split end; try lia.
  all: f_equal; lia.
Qed.

(** The stale page 5 of 3: Next brings it back into the range. *)
Lemma pager_clicks_witness :
  currentPage (clickNext 3 (mkState POP TabStatus.Pending 5 1)) <= 3.
Proof.
  apply (pager_clicks 3 (mkState POP TabStatus.Pending 5 1) scenarioQueries).
Defined.

(** A stale page number, 5 of 3, is brought back to the last page by a
    click on Next. *)
Example next_from_stale_page :
  currentPage (clickNext 3 (mkState POP TabStatus.Pending 5 1)) = 3.
Proof. reflexivity. Qed.

End Pager.

(** ** More on grouping *)

(** What each group of the map looks like: it starts with the request
    that gave it its user, and holds requests of its key only. *)
Lemma GroupsInv_shape p m k g :
  GroupsInv p m -> In (k, g) m ->
  exists r rest,
    requests g = r :: rest /\
    user g = getUser (Request.userId r) /\
    groupKey g = k /\
    Forall (fun x => requestKey x = k) (requests g).
Proof.
  intros Hinv Hin.
  destruct (inv_group _ _ Hinv k g Hin)
    as (r & (pre & post & Hp & Hk & Hpre) & Hu & Hreq).
  exists r, (filter (fun x => String.eqb (requestKey x) k) post).
  split; [|split; [exact Hu|split]].
  - rewrite Hreq, Hp, filter_app, (filter_key_none _ _ Hpre). simpl.
    now rewrite Hk, String.eqb_refl.
  - eapply GroupsInv_groupKey; eauto.
  - rewrite Hreq. apply Forall_forall. intros x Hx.
    apply filter_In in Hx as [_ Hx]. now apply String.eqb_eq.
Qed.

(** X5. No group is empty: every group returned by the grouping holds at
    least one request, the sizes of the groups add up to the length of the
    filtered sequence, and there is no group exactly when there is no
    request. *)
Theorem groups_are_not_empty (filtered : list Request.t) :
  exists gs,
    groupedRequests filtered = Some gs /\
    (forall g, In g gs -> (1 <= length (requests g))%nat) /\
    list_sum (map (fun g => length (requests g)) gs) = length filtered /\
    (gs = [] <-> filtered = []).
Proof.
  destruct (groupedRequests_total filtered) as (m & _ & Hgs & Hinv).
  exists (JsMap.values m). split; [exact Hgs|]. split; [|split].
  - intros g Hg. destruct (values_In _ _ Hg) as (k & Hin).
    destruct (GroupsInv_shape _ _ _ _ Hinv Hin) as (r & rest & -> & _).
    simpl. lia.
  - rewrite <- (Permutation_length (inv_perm _ _ Hinv)).
    generalize (JsMap.values m). intros gs.
    induction gs as [|g gs IH]; simpl; [reflexivity|].
    now rewrite length_app, IH.
  - split.
    + intros Hnil. destruct filtered as [|r filtered]; [reflexivity|].
      pose proof (inv_cover _ _ Hinv r (or_introl eq_refl)) as Hk.
      destruct (JsMap_keys_In _ _ Hk) as (g & Hin).
      apply (in_map snd) in Hin. fold (JsMap.values m) in Hin.
      rewrite Hnil in Hin. destruct Hin.
    + intros ->. unfold groupedRequests in Hgs. simpl in Hgs.
      now inversion Hgs.
Qed.

Lemma JsMap_has_at {V : Type} k (v : V) before after :
  JsMap.has k (before ++ (k, v) :: after) = true.
Proof.
  destruct (JsMap.has k (before ++ (k, v) :: after)) eqn:E; [reflexivity|].
  apply JsMap_has_false in E. exfalso. apply E.
  unfold JsMap.keys. rewrite map_app, in_app_iff. simpl. auto.
Qed.

Lemma groupStep_at before g after r :
  ~ In (requestKey r) (JsMap.keys before) ->
  groupStep (before ++ (requestKey r, g) :: after) r =
  Some (before ++ (requestKey r, push g r) :: after).
Proof.
  intros Hk. unfold groupStep. fold (requestKey r).
  rewrite JsMap_has_at. simpl.
  now rewrite JsMap_get_at, JsMap_set_at.
Qed.

Lemma groupStep_fresh m r :
  ~ In (requestKey r) (JsMap.keys m) ->
  groupStep m r =
  Some (m ++ [(requestKey r, mkGroup (getUser (Request.userId r)) [r])]).
Proof.
  intros Hk. destruct (groupStep_cases m r)
    as [[_ H] | (before & g & after & -> & _ & _)]; [exact H|].
  exfalso. apply Hk. unfold JsMap.keys. rewrite map_app, in_app_iff.
  simpl. auto.
Qed.

Lemma forEach_app {A S : Type} (f : S -> A -> option S) l1 l2 s :
  forEach f (l1 ++ l2) s =
  match forEach f l1 s with
  | Some s' => forEach f l2 s'
  | None => None
  end.
Proof.
  revert s. induction l1 as [|x l1 IH]; intros s; simpl; [reflexivity|].
  destruct (f s x); [apply IH | reflexivity].
Qed.

(** Requests of one key, met one after the other, all join the group of
    that key. *)
Lemma forEach_block k l : forall before u acc,
  Forall (fun x => requestKey x = k) l ->
  ~ In k (JsMap.keys before) ->
  forEach groupStep l (before ++ [(k, mkGroup u acc)]) =
  Some (before ++ [(k, mkGroup u (acc ++ l))]).
Proof.
  induction l as [|x l IH]; intros before u acc Hall Hk; simpl.
  - now rewrite app_nil_r.
  - inversion Hall as [|? ? Hx Hl]; subst.
    rewrite groupStep_at by exact Hk. unfold push. simpl.
    rewrite IH by assumption. now rewrite <- app_assoc.
Qed.

Lemma regroup gs : forall m0,
  Forall (fun g =>
            exists r rest,
              requests g = r :: rest /\
              user g = getUser (Request.userId r) /\
              Forall (fun x => requestKey x = groupKey g) (requests g)) gs ->
  NoDup (JsMap.keys m0 ++ map groupKey gs) ->
  forEach groupStep (concat (map requests gs)) m0 =
  Some (m0 ++ map (fun g => (groupKey g, g)) gs).
Proof.
  induction gs as [|g gs IH]; intros m0 Hwf Hnd; simpl.
  - now rewrite app_nil_r.
  - inversion Hwf as [|? ? (r & rest & Hreq & Hu & Hall) Hrest]; subst.
    assert (Hfresh : ~ In (groupKey g) (JsMap.keys m0)).
    { simpl in Hnd. apply NoDup_remove_2 in Hnd.
      rewrite in_app_iff in Hnd. tauto. }
    rewrite forEach_app, Hreq. simpl.
    rewrite Hreq in Hall. inversion Hall as [|? ? Hr Hrest']; subst.
    rewrite <- Hr in *. rewrite groupStep_fresh by exact Hfresh.
    rewrite forEach_block by assumption. simpl.
    replace (mkGroup (getUser (Request.userId r)) (r :: rest)) with g
      by (destruct g; simpl in *; congruence).
    rewrite IH; [now rewrite <- app_assoc | exact Hrest |].
    unfold JsMap.keys in *. rewrite map_app, <- app_assoc.
    simpl in Hnd |- *. rewrite Hr. exact Hnd.
Qed.

(** X6. Grouping is stable: when the groups it returns are laid out one
    after the other as a single sequence of requests and grouped again,
    the result is the same list of groups. *)
Theorem regrouping_is_stable (filtered : list Request.t) :
  exists gs,
    groupedRequests filtered = Some gs /\
    groupedRequests (concat (map requests gs)) = Some gs.
Proof.
  destruct (groupedRequests_total filtered) as (m & _ & Hgs & Hinv).
  exists (JsMap.values m). split; [exact Hgs|].
  unfold groupedRequests, groupsMap.
  rewrite (regroup (JsMap.values m) JsMap.empty).
  - simpl. unfold JsMap.values at 1. rewrite map_map. simpl.
    now rewrite map_id.
  - apply Forall_forall. intros g Hg. destruct (values_In _ _ Hg) as (k & Hin).
    destruct (GroupsInv_shape _ _ _ _ Hinv Hin) as (r & rest & H1 & H2 & H3 & H4).
    exists r, rest. rewrite H3. auto.
  - simpl. rewrite (GroupsInv_keys _ _ Hinv). apply (inv_nodup _ _ Hinv).
Qed.

Example regrouping_interleaved :
  option_map (map (fun g => map Request._id (requests g)))
    (groupedRequests scenario) = Some [["1"; "3"]; ["2"]] /\
  option_map (map (fun g => map Request._id (requests g)))
    (groupedRequests
       [plainRequest "1" (Reference "A") "pending" None;
        plainRequest "3" (Reference "A") "pending" None;
        plainRequest "2" (Reference "B") "accept" (Some "done")])
  = Some [["1"; "3"]; ["2"]].
Proof. split; reflexivity. Qed.

(** ** Tabs and rows *)

(** X7. The four tabs do not overlap: a request meets the condition of at
    most one tab, and of one exactly when its approval status is pending,
    accept or decline; so the four tab counts add up to the number of
    requests with one of these three statuses. *)
Theorem tabs_do_not_overlap (reqs : list Request.t) :
  (forall r t1 t2,
     statusMatches t1 r = true -> statusMatches t2 r = true -> t1 = t2) /\
  (forall r,
     (exists t, statusMatches t r = true) <->
     Request.status r = ServiceStatus.Pending \/
     Request.status r = ServiceStatus.Accept \/
     Request.status r = ServiceStatus.Decline) /\
  (getTabCount reqs TabStatus.Pending + getTabCount reqs TabStatus.Accept +
   getTabCount reqs TabStatus.Decline + getTabCount reqs TabStatus.Done =
   length (filter (fun r =>
                     String.eqb (Request.status r) ServiceStatus.Pending
                     || String.eqb (Request.status r) ServiceStatus.Accept
                     || String.eqb (Request.status r) ServiceStatus.Decline)
             reqs))%nat.
Proof.
  split; [|split].
  - intros r t1 t2 H1 H2.
    destruct t1, t2; try reflexivity; exfalso;
      cbv [statusMatches ServiceStatus.Pending ServiceStatus.Accept
           ServiceStatus.Decline] in H1, H2;
      repeat match goal with
             | H : _ && _ = true |- _ => apply andb_true_iff in H as [? ?]
             | H : negb _ = true |- _ => apply negb_true_iff in H
             | H : String.eqb _ _ = true |- _ => apply String.eqb_eq in H
             end;
      congruence.
  - intros r. split.
    + intros [t Ht]. now apply statusMatches_known in Ht.
    + intros [H|[H|H]].
      * exists TabStatus.Pending. now apply statusMatches_Pending.
      * destruct (opt_eqb (Request.deliveryStatus r) DeliveryStatus.Done) eqn:E.
        -- exists TabStatus.Done. apply statusMatches_Done.
           now apply opt_eqb_eq in E.
        -- exists TabStatus.Accept. apply statusMatches_Accept.
           now apply opt_eqb_neq in E.
      * exists TabStatus.Decline. now apply statusMatches_Decline.
  - rewrite !getTabCount_filter.
    induction reqs as [|x reqs IH]; simpl; [reflexivity|].
    unfold ServiceStatus.Pending, ServiceStatus.Accept,
      ServiceStatus.Decline in *.
    destruct (String.eqb_spec (Request.status x) "pending") as [E|_];
      [rewrite E; simpl; lia|].
    destruct (String.eqb_spec (Request.status x) "decline") as [E|_];
      [rewrite E; simpl; lia|].
    destruct (String.eqb (Request.status x) "accept"),
      (opt_eqb (Request.deliveryStatus x) DeliveryStatus.Done); simpl; lia.
Qed.

Lemma rowActions_pending tab req :
  Request.status req = ServiceStatus.Pending ->
  rowActions tab req =
  [DetailsLink (detailsHref tab req);
   AcceptButton (Request._id req); DeclineButton (Request._id req)].
Proof. intros H. unfold rowActions. rewrite H. reflexivity. Qed.

Lemma rowActions_decided tab req :
  Request.status req = ServiceStatus.Accept \/
  Request.status req = ServiceStatus.Decline ->
  rowActions tab req =
  [DetailsLink (detailsHref tab req); DeleteButton (Request._id req)].
Proof. intros [H|H]; unfold rowActions; rewrite H; reflexivity. Qed.

Lemma rowActions_other tab req :
  Request.status req <> ServiceStatus.Pending ->
  Request.status req <> ServiceStatus.Accept ->
  Request.status req <> ServiceStatus.Decline ->
  rowActions tab req = [].
Proof.
  intros Hp Ha Hd. unfold rowActions.
  apply String.eqb_neq in Hp, Ha, Hd. now rewrite Hp, Ha, Hd.
Qed.

Lemma rowActions_cases tab req :
  (Request.status req = ServiceStatus.Pending /\
   rowActions tab req =
     [DetailsLink (detailsHref tab req);
      AcceptButton (Request._id req); DeclineButton (Request._id req)]) \/
  ((Request.status req = ServiceStatus.Accept \/
    Request.status req = ServiceStatus.Decline) /\
   rowActions tab req =
     [DetailsLink (detailsHref tab req); DeleteButton (Request._id req)]) \/
  (Request.status req <> ServiceStatus.Pending /\
   Request.status req <> ServiceStatus.Accept /\
   Request.status req <> ServiceStatus.Decline /\
   rowActions tab req = []).
Proof.
  destruct (String.eqb_spec (Request.status req) ServiceStatus.Pending) as [Hp|Hp];
    [left; split; [exact Hp | now apply rowActions_pending]|].
  destruct (String.eqb_spec (Request.status req) ServiceStatus.Accept) as [Ha|Ha];
    [right; left; split; [auto | apply rowActions_decided; auto]|].
  destruct (String.eqb_spec (Request.status req) ServiceStatus.Decline) as [Hd|Hd];
    [right; left; split; [auto | apply rowActions_decided; auto]|].
  right; right. repeat split; try assumption. now apply rowActions_other.
Qed.

(** X9. The Accept and the Decline button are offered exactly for a
    pending request, each with the identifier of that request; no row
    offers both a decision and a deletion; every row with actions has
    exactly one details link; and a request whose approval status is none
    of the three has an empty action cell. *)
Theorem row_actions_by_status (tab : ServiceTab) (req : Request.t) :
  (forall id,
     In (AcceptButton id) (rowActions tab req) <->
     Request.status req = ServiceStatus.Pending /\ id = Request._id req) /\
  (forall id,
     In (DeclineButton id) (rowActions tab req) <->
     Request.status req = ServiceStatus.Pending /\ id = Request._id req) /\
  (forall id id',
     ~ (In (AcceptButton id) (rowActions tab req) /\
        In (DeleteButton id') (rowActions tab req))) /\
  (forall id id',
     ~ (In (DeclineButton id) (rowActions tab req) /\
        In (DeleteButton id') (rowActions tab req))) /\
  (rowActions tab req <> [] ->
     filter (fun a => match a with DetailsLink _ => true | _ => false end)
       (rowActions tab req) = [DetailsLink (detailsHref tab req)]) /\
  (rowActions tab req = [] <->
     Request.status req <> ServiceStatus.Pending /\
     Request.status req <> ServiceStatus.Accept /\
     Request.status req <> ServiceStatus.Decline).
Proof.
  unfold ServiceStatus.Pending, ServiceStatus.Accept, ServiceStatus.Decline.
  destruct (rowActions_cases tab req)
    as [[Hs ->] | [[Hs ->] | (Hp & Ha & Hd & ->)]];
    unfold ServiceStatus.Pending, ServiceStatus.Accept,
      ServiceStatus.Decline in *;
    simpl; repeat match goal with |- _ /\ _ => split end;
    try (intros id; split; [intros H | intros [H1 H2]]);
    try (intros id id' [H1 H2]);
    try (split; [intros H | intros (H1 & H2 & H3)]);
    try (intros H);
    repeat match goal with
           | H : _ \/ _ |- _ => destruct H
           | H : False |- _ => destruct H
           | H : _ = _ :> Action |- _ => first [discriminate H | inversion H; clear H]
           | H : _ = _ :> list Action |- _ => discriminate H
           end;
    subst; try congruence; auto; try tauto.
Qed.

Lemma Array_slice_length {A : Type} (l : list A) (a s : Z) :
  (0 <= s)%Z -> (Z.of_nat (length (Array_slice l a (a + s))) <= s)%Z.
Proof.
  intros Hs. unfold Array_slice. rewrite length_firstn.
  destruct (Z.ltb_spec a 0), (Z.ltb_spec (a + s) 0); lia.
Qed.

Lemma Array_slice_NoDup {A B : Type} (f : A -> B) (l : list A) (a b : Z) :
  NoDup (map f l) -> NoDup (map f (Array_slice l a b)).
Proof.
  intros H. unfold Array_slice. rewrite <- firstn_map, <- skipn_map.
  now apply NoDup_firstn, NoDup_skipn.
Qed.

Lemma rowActions_of_tab (service : ServiceTab) (tab : TabStatus.t) req :
  statusMatches tab req = true ->
  rowActions service req =
  match tab with
  | TabStatus.Pending =>
      [DetailsLink (detailsHref service req);
       AcceptButton (Request._id req); DeclineButton (Request._id req)]
  | _ => [DetailsLink (detailsHref service req);
          DeleteButton (Request._id req)]
  end.
Proof.
  destruct tab; intros H.
  - apply statusMatches_Pending in H. now apply rowActions_pending.
  - apply statusMatches_Accept in H. apply rowActions_decided. tauto.
  - apply statusMatches_Decline in H. apply rowActions_decided. tauto.
  - apply statusMatches_Done in H. apply rowActions_decided. tauto.
Qed.

(** X8. What a render shows when it shows group cards: at least one and
    at most ten cards, with pairwise distinct keys; every row is the row
    of a request of the fetched list that meets the condition of the
    selected status tab, so under the Pending tab every row offers
    Details, Accept and Decline, and under the three other tabs every row
    offers Details and Delete. *)
Theorem displayed_rows_match_tab (st : State) (q : Queries) (v : View)
  (cards : list GroupCard) :
  render st q = Some v -> body v = GroupCards cards ->
  cards <> [] /\
  (length cards <= 10)%nat /\
  NoDup (map cardKey cards) /\
  (forall card, In card cards ->
     requestCount card = length (rows card) /\ rows card <> []) /\
  (forall card row, In card cards -> In row (rows card) ->
     exists req,
       In req (allRequests st q) /\
       statusMatches (activeStatusTab st) req = true /\
       requestKey req = cardKey card /\
       rowKey row = Request._id req /\
       actions row =
         match activeStatusTab st with
         | TabStatus.Pending =>
             [DetailsLink (detailsHref (activeServiceTab st) req);
              AcceptButton (Request._id req);
              DeclineButton (Request._id req)]
         | _ => [DetailsLink (detailsHref (activeServiceTab st) req);
                 DeleteButton (Request._id req)]
         end).
Proof.
  intros Hrender Hbody.
  destruct (groupedRequests_total
              (filteredRequests (allRequests st q) (activeStatusTab st)))
    as (m & _ & Hg & Hinv).
  destruct (render_some st q _ Hg) as (v' & Hv' & _ & Hb).
  rewrite Hrender in Hv'. inversion Hv'; subst v'; clear Hv'.
  rewrite Hb in Hbody. unfold renderBody in Hbody.
  destruct (isLoading _); [discriminate|].
  destruct (isError _); [discriminate|].
  set (shown := groupsToDisplay localLimit (currentPage st) (JsMap.values m))
    in *.
  destruct (Nat.eqb_spec (length shown) 0) as [_|Hlen]; [discriminate|].
  inversion Hbody; subst cards; clear Hbody.
  assert (Hshown : forall g, In g shown ->
            exists k, In (k, g) m).
  { intros g Hin. apply values_In. eapply Array_slice_In, Hin. }
  split; [|split; [|split; [|split]]].
  - destruct shown; [contradiction | discriminate].
  - rewrite length_map.
    pose proof (Array_slice_length (JsMap.values m)
                  (startIndex localLimit (currentPage st)) localLimit
                  ltac:(unfold localLimit; lia)) as H.
    unfold shown, groupsToDisplay, endIndex, localLimit in *. lia.
  - rewrite map_map. simpl. apply Array_slice_NoDup.
    change (fun x => userKey (user x)) with groupKey.
    rewrite (GroupsInv_keys _ _ Hinv). apply (inv_nodup _ _ Hinv).
  - intros card Hcard. apply in_map_iff in Hcard as (g & <- & Hin).
    simpl. rewrite length_map. split; [reflexivity|].
    destruct (Hshown g Hin) as (k & Hk).
    destruct (GroupsInv_shape _ _ _ _ Hinv Hk) as (r & rest & -> & _).
    discriminate.
  - intros card row Hcard Hrow.
    apply in_map_iff in Hcard as (g & <- & Hin). simpl in Hrow.
    apply in_map_iff in Hrow as (req & <- & Hreq). simpl.
    destruct (Hshown g Hin) as (k & Hk).
    destruct (inv_group _ _ Hinv _ _ Hk) as (_ & _ & _ & Hfilter).
    rewrite Hfilter in Hreq. apply filter_In in Hreq as [Hreq Hkey].
    apply filter_In in Hreq as [Hall Hmatch].
    exists req. repeat split; [exact Hall | exact Hmatch | |].
    + apply String.eqb_eq in Hkey. rewrite Hkey. symmetry.
      eapply GroupsInv_groupKey; eauto.
    + now apply rowActions_of_tab.
Qed.

Lemma displayed_rows_match_tab_witness :
  NoDup (map cardKey
           [mkCard "A" (User.stub "A") 2
              [mkRow "1" [DetailsLink "/dashboard/our-service/1?type=pop";
                          AcceptButton "1"; DeclineButton "1"];
               mkRow "3" [DetailsLink "/dashboard/our-service/3?type=pop";
                          AcceptButton "3"; DeclineButton "3"]]]).
Proof.
  eapply (displayed_rows_match_tab initialState scenarioQueries);
    reflexivity.
Defined.

(** ** Clicks *)

Lemma run_handleStatusUpdate_trace (w : World) (tab : ServiceTab)
  (id : string) (status : Decision) :
  let m := if ServiceTab_eqb tab POP
           then updatePopStatus id status else updateCocpStatus id status in
  (exists message msg,
     answerMutation w m = Fulfilled message /\
     run w (handleStatusUpdate tab id status) =
       [Dispatch m; Toast true msg] /\
     (forall s, message = Some s -> s <> "" -> msg = s)) \/
  (exists message c msg,
     answerMutation w m = Rejected message /\
     run w (handleStatusUpdate tab id status) =
       [Dispatch m; Console c; Toast false msg] /\
     (forall s, message = Some s -> s <> "" -> msg = s)).
Proof.
  assert (Hor : forall message d s,
            message = Some s -> s <> "" -> or_string message d = s).
  { intros message d s -> Hs. simpl. apply String.eqb_neq in Hs.
    now rewrite Hs. }
  destruct tab; simpl;
    match goal with
    | |- context [answerMutation w ?m0] =>
        destruct (answerMutation w m0) as [message|message] eqn:E
    end;
    [left | right | left | right];
    repeat eexists; unfold handleStatusUpdate; simpl; try rewrite E;
    try reflexivity; apply Hor.
Qed.

Lemma filter_nil_not_In {A : Type} (f : A -> bool) (l : list A) x :
  filter f l = [] -> In x l -> f x = false.
Proof.
  intros Hnil Hin. destruct (f x) eqn:E; [|reflexivity].
  assert (H : In x (filter f l)) by (apply filter_In; auto).
  rewrite Hnil in H. destruct H.
Qed.

(** The trace of a status update: the mutation first, then no further
    mutation, no dialog, and one toast. *)
Lemma handleStatusUpdate_facts (w : World) (tab : ServiceTab) (id : string)
  (status : Decision) :
  exists m rest,
    run w (handleStatusUpdate tab id status) = Dispatch m :: rest /\
    m = (if ServiceTab_eqb tab POP then updatePopStatus else updateCocpStatus)
          id status /\
    filter isDispatch rest = [] /\
    filter isDialog rest = [] /\
    exists msg,
      filter isToast rest =
      [Toast (match answerMutation w m with
              | Fulfilled _ => true
              | Rejected _ => false
              end) msg].
Proof.
  destruct (run_handleStatusUpdate_trace w tab id status)
    as [(message & msg & E & Hrun & _) | (message & c & msg & E & Hrun & _)];
    rewrite Hrun; do 2 eexists; (split; [reflexivity|]);
    (split; [now destruct tab|]); simpl;
    (split; [reflexivity|]); (split; [reflexivity|]);
    rewrite E; eauto.
Qed.

Lemma handleDelete_facts (w : World) (tab : ServiceTab) (id : string) :
  (length (filter isDispatch (run w (handleDelete tab id))) <= 1)%nat /\
  forall m, In (Dispatch m) (run w (handleDelete tab id)) ->
            mutationId m = id /\ mutationService m = tab.
Proof.
  destruct (run_handleDelete w tab id)
    as [[_ Hrun] | [_ (rest & Hrun & Hrest)]]; rewrite Hrun.
  - split; [simpl; lia|]. intros m [H|[]]. discriminate H.
  - assert (Hnone : filter isDispatch rest = []).
    { clear - Hrest. induction rest as [|e rest IH]; [reflexivity|].
      simpl. destruct e as [| m' | |]; simpl;
        try (apply IH; intros m Hm; apply (Hrest m); now right).
      exfalso. apply (Hrest m'). now left. }
    split; [simpl; rewrite Hnone; simpl; lia|].
    intros m [H|[H|H]]; [discriminate H | | now apply Hrest in H].
    inversion H. destruct tab; split; reflexivity.
Qed.

(** A click on Accept or Decline of the row of [req]. *)
Lemma click_decision (w : World) (tab : ServiceTab) (req : Request.t)
  (a : Action) (status : Decision) (isUpdatingPop isUpdatingCocp : bool) :
  (a = AcceptButton (Request._id req) /\ status = accept) \/
  (a = DeclineButton (Request._id req) /\ status = decline) ->
  let trace :=
    run w (click (isUpdatingStatus isUpdatingPop isUpdatingCocp) tab a) in
  (length (filter isDispatch trace) <= 1)%nat /\
  (forall m, In (Dispatch m) trace ->
     mutationId m = Request._id req /\ mutationService m = tab) /\
  (isUpdatingPop = true \/ isUpdatingCocp = true -> trace = []) /\
  (isUpdatingPop = false -> isUpdatingCocp = false ->
     exists m rest,
       trace = Dispatch m :: rest /\
       m = (if ServiceTab_eqb tab POP then updatePopStatus else updateCocpStatus)
             (Request._id req) status /\
       filter isDialog rest = [] /\
       exists msg,
         filter isToast rest =
         [Toast (match answerMutation w m with
                 | Fulfilled _ => true
                 | Rejected _ => false
                 end) msg]).
Proof.
  intros Ha trace.
  assert (Htrace : trace =
            if isUpdatingPop || isUpdatingCocp then []
            else run w (handleStatusUpdate tab (Request._id req) status)).
  { subst trace. unfold click, isUpdatingStatus.
    destruct Ha as [[-> ->] | [-> ->]]; simpl;
      destruct (isUpdatingPop || isUpdatingCocp); reflexivity. }
  clearbody trace. subst trace.
  destruct (handleStatusUpdate_facts w tab (Request._id req) status)
    as (m & rest & Hrun & Hm & Hnodisp & Hnodlg & msg & Htoast).
  destruct isUpdatingPop, isUpdatingCocp; cbn [orb].
  1-3: split; [simpl; lia|]; split; [intros ? []|]; split; [reflexivity|];
    intros; discriminate.
  rewrite Hrun. split; [|split; [|split]].
  - simpl. rewrite Hnodisp. simpl. lia.
  - intros m' [[= <-]|Hin].
    + rewrite Hm. destruct tab; split; reflexivity.
    + apply (filter_nil_not_In _ _ _ Hnodisp) in Hin. discriminate Hin.
  - intros [H|H]; discriminate H.
  - intros _ _. exists m, rest. repeat split; eauto.
Qed.

(** X10. A click on any action of a row sends at most one mutation, and
    a mutation it sends carries the identifier of the request of that row
    and goes to the endpoint of the selected service category.  While a
    status update is in flight the Accept and the Decline button are
    disabled and a click on them does nothing; otherwise a click on
    Accept or Decline sends the status update at once, opens no dialog
    and ends with exactly one toast, a success toast exactly when the
    mutation was fulfilled.  The details link and the Delete button are
    never disabled. *)
Theorem clicks_act_on_their_row (w : World) (tab : ServiceTab)
  (req : Request.t) (a : Action) (isUpdatingPop isUpdatingCocp : bool) :
  In a (rowActions tab req) ->
  let updating := isUpdatingStatus isUpdatingPop isUpdatingCocp in
  let trace := run w (click updating tab a) in
  (length (filter isDispatch trace) <= 1)%nat /\
  (forall m, In (Dispatch m) trace ->
     mutationId m = Request._id req /\ mutationService m = tab) /\
  (forall id, a = AcceptButton id \/ a = DeclineButton id ->
     isUpdatingPop = true \/ isUpdatingCocp = true ->
     trace = []) /\
  (forall id, a = AcceptButton id \/ a = DeclineButton id ->
     isUpdatingPop = false -> isUpdatingCocp = false ->
     exists m rest,
       trace = Dispatch m :: rest /\
       m = (if ServiceTab_eqb tab POP then updatePopStatus else updateCocpStatus)
             (Request._id req)
             (match a with DeclineButton _ => decline | _ => accept end) /\
       filter isDialog rest = [] /\
       exists msg,
         filter isToast rest =
         [Toast (match answerMutation w m with
                 | Fulfilled _ => true
                 | Rejected _ => false
                 end) msg]) /\
  (forall href, a = DetailsLink href -> trace = []) /\
  (forall id, a = DeleteButton id -> trace = run w (handleDelete tab id)).
Proof.
  intros Hin updating trace.
  assert (Hid : match a with
                | DetailsLink _ => True
                | AcceptButton id | DeclineButton id | DeleteButton id =>
                    id = Request._id req
                end).
  { destruct (rowActions_cases tab req)
      as [[_ H] | [[_ H] | (_ & _ & _ & H)]]; rewrite H in Hin; simpl in Hin;
      repeat (destruct Hin as [<-|Hin]; [exact I || reflexivity|]);
      destruct Hin. }
  clear Hin. destruct a as [href|id|id|id]; subst.
  - subst trace. simpl.
    split; [lia|]. split; [intros ? []|].
    split; [intros ? [H|H]; discriminate H|].
    split; [intros ? [H|H]; discriminate H|].
    split; [reflexivity|]. intros ? H; discriminate H.
  - destruct (click_decision w tab req (AcceptButton (Request._id req)) accept
                isUpdatingPop isUpdatingCocp (or_introl (conj eq_refl eq_refl)))
      as (H1 & H2 & H3 & H4).
    split; [exact H1|]. split; [exact H2|].
    split; [intros ? _; exact H3|]. split; [intros ? _; exact H4|].
    split; intros ? H; discriminate H.
  - destruct (click_decision w tab req (DeclineButton (Request._id req)) decline
                isUpdatingPop isUpdatingCocp (or_intror (conj eq_refl eq_refl)))
      as (H1 & H2 & H3 & H4).
    split; [exact H1|]. split; [exact H2|].
    split; [intros ? _; exact H3|]. split; [intros ? _; exact H4|].
    split; intros ? H; discriminate H.
  - subst trace. unfold click. simpl.
    destruct (handleDelete_facts w tab (Request._id req)) as [H1 H2].
    split; [exact H1|]. split; [exact H2|].
    split; [intros ? [H|H]; discriminate H|].
    split; [intros ? [H|H]; discriminate H|].
    split; [intros ? H; discriminate H|].
    intros id [= <-]. reflexivity.
Qed.

(** An Accept click with no update in flight. *)
Lemma clicks_act_on_their_row_witness :
  (length
     (filter isDispatch
        (run (mkWorld (fun _ => mkSwalResult true) (fun _ => Fulfilled None))
           (click (isUpdatingStatus false false) POP (AcceptButton "1"))))
   <= 1)%nat.
Proof.
  apply (clicks_act_on_their_row _ POP
           (plainRequest "1" (Reference "A") "pending" None)
           (AcceptButton "1") false false).
  simpl. auto.
Defined.

(** The same click while a COCP status update is in flight. *)
Example accept_click_while_updating :
  run (mkWorld (fun _ => mkSwalResult true) (fun _ => Fulfilled None))
      (click (isUpdatingStatus false true) POP (AcceptButton "1")) = [].
Proof. reflexivity. Qed.

Example accept_click_trace :
  run (mkWorld (fun _ => mkSwalResult true)
         (fun _ => Rejected (Some "Already handled")))
      (onClick COCP (AcceptButton "1")) =
  [Dispatch (updateCocpStatus "1" accept);
   Console "Failed to accept request:";
   Toast false "Already handled"].
Proof. reflexivity. Qed.

(** X11. After a click on Delete the "Deleted!" notice and the success
    toast appear exactly when the dialog was confirmed and the mutation
    fulfilled; an error toast appears exactly when the dialog was
    confirmed and the mutation rejected, and then no notice follows; a
    cancelled dialog is followed by no toast at all. *)
Theorem delete_feedback (w : World) (tab : ServiceTab) (id : string) :
  let m := if ServiceTab_eqb tab POP then deletePop id else deleteCocp id in
  let trace := run w (handleDelete tab id) in
  let confirmed := isConfirmed (answerDialog w confirmDelete) in
  let fulfilled := match answerMutation w m with
                   | Fulfilled _ => true
                   | Rejected _ => false
                   end in
  ((exists r, In (Dialog deletedNotice r) trace) <->
     confirmed && fulfilled = true) /\
  ((exists msg, In (Toast true msg) trace) <->
     confirmed && fulfilled = true) /\
  ((exists msg, In (Toast false msg) trace) <->
     confirmed && negb fulfilled = true) /\
  length (filter isToast trace) = (if confirmed then 1 else 0)%nat.
Proof.
  unfold handleDelete. simpl.
  destruct (answerDialog w confirmDelete) as [[|]]; simpl.
  - destruct tab; simpl;
      match goal with
      | |- context [answerMutation w ?m0] => destruct (answerMutation w m0)
      end; simpl;
      (split; [|split; [|split; [|reflexivity]]]); split;
      try discriminate; try (intros _; eexists; simpl; eauto 6; fail);
      intros [x H]; simpl in H;
      repeat (destruct H as [H|H]; [try discriminate H|]);
      try destruct H; try reflexivity.
  - (split; [|split; [|split; [|reflexivity]]]); split;
      try discriminate; intros [x [H|[]]]; discriminate H.
Qed.

(** ** The details link *)

Lemma append_list (a b : string) :
  list_ascii_of_string (String.append a b) =
  list_ascii_of_string a ++ list_ascii_of_string b.
Proof. induction a as [|c a IH]; simpl; [reflexivity | now rewrite IH]. Qed.

Lemma list_ascii_inj (a b : string) :
  list_ascii_of_string a = list_ascii_of_string b -> a = b.
Proof.
  intros H. rewrite <- (string_of_list_ascii_of_string a),
    <- (string_of_list_ascii_of_string b). now rewrite H.
Qed.

(** X12. The details link names its request and its category: two links
    are equal only for the same request identifier and the same service
    category. *)
Theorem details_link_is_injective (tab tab' : ServiceTab)
  (req req' : Request.t) :
  detailsHref tab req = detailsHref tab' req' ->
  tab = tab' /\ Request._id req = Request._id req'.
Proof.
  unfold detailsHref. intros H.
  apply (f_equal list_ascii_of_string) in H.
  rewrite !append_list in H. apply app_inv_head in H.
  assert (Htab : tab = tab').
  { apply (f_equal (@rev _)) in H. rewrite !rev_app_distr in H.
    destruct tab, tab'; try reflexivity; simpl in H; discriminate H. }
  split; [exact Htab|]. subst tab'.
  apply app_inv_tail in H. now apply list_ascii_inj.
Qed.

Lemma details_link_is_injective_witness :
  POP = POP /\
  Request._id (plainRequest "1" (Reference "A") "pending" None) =
  Request._id (plainRequest "1" (Reference "B") "accept" None).
Proof.
  apply (details_link_is_injective POP POP). reflexivity.
Defined.

(** ** Render states *)

(** X15. A render never fails.  While the active query is loading the
    body is the loading text; otherwise, on an error, the error text; in
    both cases no pager is shown and no group card, whatever data the
    query still holds.  When nothing of the fetched list meets the
    selected tab (in particular when the list is empty or absent) and the
    query is neither loading nor failed, the body is the "no requests
    found" text for every page number, and no pager is shown. *)
Theorem render_states (st : State) (q : Queries) :
  exists v,
    render st q = Some v /\
    (isLoading (activeQuery st q) = true ->
       body v = LoadingMessage /\ pager v = None) /\
    (isLoading (activeQuery st q) = false ->
     isError (activeQuery st q) = true ->
       body v = ErrorMessage /\ pager v = None) /\
    (isLoading (activeQuery st q) = false ->
     isError (activeQuery st q) = false ->
     filteredRequests (allRequests st q) (activeStatusTab st) = [] ->
       body v = NoRequestsFound (activeStatusTab st) (activeServiceTab st) /\
       pager v = None).
Proof.
  unfold render.
  destruct (groupedRequests_total
              (filteredRequests (allRequests st q) (activeStatusTab st)))
    as (m & Hm & -> & Hinv).
  eexists. split; [reflexivity|]. simpl. unfold renderBody.
  split; [|split].
  - intros ->. split; reflexivity.
  - intros -> ->. split; reflexivity.
  - intros -> -> Hnil. rewrite Hnil in Hm. inversion Hm; subst m.
    change (JsMap.values JsMap.empty) with (@nil GroupedRequests).
    assert (Hs : groupsToDisplay localLimit (currentPage st) [] = []).
    { unfold groupsToDisplay, Array_slice. now rewrite skipn_nil, firstn_nil. }
    rewrite Hs. split; reflexivity.
Qed.

Lemma render_states_witness :
  exists v,
    render initialState
      (mkQueries (mkQuery (Some scenario) true true true) (idleQuery [])) =
    Some v /\ body v = LoadingMessage /\ pager v = None.
Proof.
  destruct (render_states initialState
              (mkQueries (mkQuery (Some scenario) true true true)
                 (idleQuery [])))
    as (v & Hv & Hload & _).
  exists v. split; [exact Hv|]. apply Hload. reflexivity.
Defined.

(** ** Delivery badges and the user page *)

(** X13. The delivery badge follows the tab: every request listed under
    the Delivery Done tab has the green badge, and no request listed
    under the Accepted tab has it. *)
Theorem delivery_badge_by_tab (allRequests : list Request.t) :
  Forall (fun req => deliveryBadgeClass req = "bg-green-100 text-green-700")
    (filteredRequests allRequests TabStatus.Done) /\
  Forall (fun req => deliveryBadgeClass req <> "bg-green-100 text-green-700")
    (filteredRequests allRequests TabStatus.Accept).
Proof.
  split; apply Forall_forall; intros req Hin;
    apply filter_In in Hin as [_ Hin]; unfold deliveryBadgeClass.
  - apply statusMatches_Done in Hin as [_ Hd].
    apply opt_eqb_eq in Hd. now rewrite Hd.
  - apply statusMatches_Accept in Hin as [_ Hd].
    apply opt_eqb_neq in Hd. rewrite Hd.
    destruct (opt_eqb _ DeliveryStatus.Started); discriminate.
Qed.





(** While the user query is loading, or after it failed, no table is
    shown although the POP requests are there. *)
Example user_page_gates :
  UserDetailsPage true false None POP false false (Some scenario) None =
    UserLoading /\
  UserDetailsPage false false
    (Some (mkUserResponse false (User.stub "A") (Some "No such user")))
    POP false false (Some scenario) None = UserNotFound.
Proof. split; reflexivity. Qed.
